(** * chistes-nlp: a shallow embedding of the notebook [chistes-nlp.ipynb]

    The notebook is a linear script over a table of Spanish jokes.  Its own
    code (the content filter, the top-words printer, the colour lookup and
    the wiring of the stages) is embedded function by function.  The
    libraries it calls (spaCy, pandas, scikit-learn) are external: the
    annotator, the random generator, the classifier and the analyzer are
    parameters of the model, and the library operations whose behaviour a
    property depends on (index alignment of [pd.concat], [LabelEncoder],
    the vocabulary pruning of [CountVectorizer], [train_test_split],
    [pd.read_csv]) are written out after their documented behaviour.

    Part I holds the definitions, Part II the proofs. *)

From Stdlib Require Import String Ascii List ZArith Lia Bool Arith.
From Stdlib Require Import Sorting.Sorted Sorting.Permutation.
From Stdlib Require Import Structures.OrderedTypeEx.
From Stdlib Require Import Numbers.DecimalString.
Import ListNotations.

Open Scope string_scope.
Open Scope list_scope.

(* ===================================================================== *)
(** * Part I: definitions                                                 *)
(* ===================================================================== *)

(** ** Python: exceptions, strings, sequences *)

Module Py.

(** The exceptions the modelled calls can raise.  [OtherError] stands for an
    exception class of an external library, by name. *)
Inductive exn : Type :=
| IndexError
| KeyError (key : string)
| ValueError (msg : string)
| TypeError
| FileNotFoundError
| OtherError (name : string).

(** A computation that returns a value or raises. *)
Definition result (A : Type) : Type := (exn + A)%type.

Definition ret {A : Type} (a : A) : result A := inr a.
Definition raise {A : Type} (e : exn) : result A := inl e.

Definition bind {A B : Type} (m : result A) (k : A -> result B) : result B :=
  match m with
  | inl e => inl e
  | inr a => k a
  end.

(** [for x in xs: ys.append(f(x))]: the first exception ends the loop and
    nothing of [ys] is returned. *)
Fixpoint mapM {A B : Type} (f : A -> result B) (xs : list A) : result (list B) :=
  match xs with
  | [] => ret []
  | x :: xs' =>
      bind (f x) (fun y => bind (mapM f xs') (fun ys => ret (y :: ys)))
  end.

(** [sep.join(xs)] *)
Fixpoint join (sep : string) (xs : list string) : string :=
  match xs with
  | [] => ""
  | x :: xs' =>
      match xs' with
      | [] => x
      | _ :: _ => x ++ sep ++ join sep xs'
      end
  end.

(** [x in t] for a tuple of strings. *)
Definition contains (t : list string) (x : string) : bool :=
  existsb (String.eqb x) t.

(** [len(s)] as an integer. *)
Definition len (s : string) : Z := Z.of_nat (String.length s).


(** [xs[i]] for a list and a non-negative index. *)
Definition list_getitem {A : Type} (xs : list A) (i : nat) : result A :=
  match nth_error xs i with
  | Some x => ret x
  | None => raise IndexError
  end.

(** The bounds of [xs[:stop:-1]] as CPython adjusts them: the walk starts at
    the last position and ends before [stop], a negative [stop] counting
    from the end and clamped to [-1]. *)
Definition adjust_stop_backwards (length stop : Z) : Z :=
  if (stop <? 0)%Z then
    (if (stop + length <? 0)%Z then (-1)%Z else (stop + length)%Z)
  else if (length <=? stop)%Z then (length - 1)%Z
  else stop.

(** The positions [xs[:stop:-1]] visits, first to last. *)
Definition backwards_positions (length stop : Z) : list nat :=
  let start := (length - 1)%Z in
  let stop' := adjust_stop_backwards length stop in
  map (fun k => Z.to_nat (start - Z.of_nat k)) (seq 0 (Z.to_nat (start - stop'))).

(** [xs[:stop:-1]] *)
Definition slice_backwards {A : Type} (xs : list A) (stop : Z) : list A :=
  flat_map
    (fun p => match nth_error xs p with Some x => [x] | None => [] end)
    (backwards_positions (Z.of_nat (length xs)) stop).

(** ["%d" % n] for a natural number. *)
Definition format_d (n : nat) : string :=
  NilZero.string_of_uint (Nat.to_uint n).

End Py.

Notation "x <- m ;; k" := (Py.bind m (fun x => k))
  (at level 61, m at next level, right associativity).

(** ** spaCy: the linguistic annotator (external) *)

Module Spacy.

(** The attributes of a token the notebook reads. *)
Record Token : Type := mkToken {
  text : string;
  lemma_ : string;
  pos_ : string;
  tag_ : string;
  is_stop : bool
}.

(** A processed document iterates over its tokens in order. *)
Definition Doc : Type := list Token.

(** [nlp = spacy.load("es")]: a callable from a text to a [Doc], which may
    raise.  Its statistical model is not part of the notebook. *)
Definition Language : Type := string -> Py.result Doc.

End Spacy.

(** ** The content filter (cell "Filtering words") *)

Module Filter.
Import Spacy.

(** [('NOUN', 'VERB', 'ADJ', 'ADV')] *)
Definition content_tags : list string := ["NOUN"; "VERB"; "ADJ"; "ADV"].

(** [token.pos_ in ('NOUN', 'VERB', 'ADJ', 'ADV')] *)
Definition is_content (token : Token) : bool :=
  Py.contains content_tags (pos_ token).

(** [[token.lemma_ for token in processed if token.pos_ in (...)]]: the
    comprehension appends to a fresh list, token by token. *)
Definition content_lemmas (processed : Doc) : list string :=
  fold_left
    (fun result token =>
       if is_content token then result ++ [lemma_ token] else result)
    processed [].

(** [def keep_only_content_words(s)] *)
Definition keep_only_content_words (nlp : Language) (s : string) : Py.result string :=
  processed <- nlp s ;;
  let result := content_lemmas processed in
  Py.ret (Py.join " " result).

(** The coarse parts of speech the specification names: noun, verb,
    adjective, adverb, as spaCy spells them. *)
Definition ContentPos (p : string) : Prop :=
  p = "NOUN" \/ p = "VERB" \/ p = "ADJ" \/ p = "ADV".

(** The specification's policy, read as a relation between an annotated
    document and the tokens retained from it: a token is retained exactly
    when its coarse part of speech is a content one, and the retained
    tokens keep their order. *)
Inductive Retained : Doc -> list Token -> Prop :=
| Retained_nil : Retained [] []
| Retained_keep t d k :
    ContentPos (pos_ t) -> Retained d k -> Retained (t :: d) (t :: k)
| Retained_drop t d k :
    ~ ContentPos (pos_ t) -> Retained d k -> Retained (t :: d) k.

End Filter.

(** ** pandas: scalars, Series, DataFrame (external) *)

Module Pandas.

(** A cell of a table or a row label.  Floats are carried as rationals;
    [NaN] is the missing value. *)
Inductive scalar : Type :=
| Str (s : string)
| Int (z : Z)
| Float (num : Z) (den : positive)
| NaN.

Definition scalar_eqb (a b : scalar) : bool :=
  match a, b with
  | Str s, Str t => String.eqb s t
  | Int x, Int y => Z.eqb x y
  | Float n d, Float m e => Z.eqb n m && Pos.eqb d e
  | NaN, NaN => true
  | _, _ => false
  end.

Definition index_eqb (i j : list scalar) : bool :=
  Nat.eqb (length i) (length j)
  && forallb (fun p => scalar_eqb (fst p) (snd p)) (combine i j).

(** A Series: values with their row labels, in row order. *)
Definition Series : Type := list (scalar * scalar).

(** A DataFrame: the row labels and the named columns, each column holding
    one cell per row. *)
Record DataFrame : Type := mkDataFrame {
  index : list scalar;
  columns : list (string * list scalar)
}.

(** [df.shape[0]] *)
Definition n_rows (df : DataFrame) : nat := length (index df).

(** [RangeIndex(n)]: the default row labels [0 .. n-1]. *)
Definition RangeIndex (n : nat) : list scalar :=
  map (fun k => Int (Z.of_nat k)) (seq 0 n).

(** [pd.DataFrame(data, index=index, columns=names)] for a two-dimensional
    array given by its rows.  Without [index] the rows are labelled
    [0 .. n-1]. *)
Definition DataFrame_of_rows (data : list (list scalar))
    (index : option (list scalar)) (names : list string) : DataFrame :=
  {| index := match index with
              | Some ix => ix
              | None => RangeIndex (length data)
              end;
     columns :=
       map (fun jn => (snd jn, map (fun row => nth (fst jn) row NaN) data))
           (combine (seq 0 (length names)) names) |}.

Fixpoint assoc {A : Type} (key : scalar) (kvs : list (scalar * A)) : option A :=
  match kvs with
  | [] => None
  | (k, v) :: kvs' => if scalar_eqb key k then Some v else assoc key kvs'
  end.

Fixpoint column (name : string) (cols : list (string * list scalar))
    : option (list scalar) :=
  match cols with
  | [] => None
  | (n, cells) :: cols' => if String.eqb name n then Some cells else column name cols'
  end.

(** [df[name]] *)
Definition getitem (df : DataFrame) (name : string) : Py.result Series :=
  match column name (columns df) with
  | Some cells => Py.ret (combine (index df) cells)
  | None => Py.raise (Py.KeyError name)
  end.

(** [df.loc[label]]: the cells of the row with that label, column by
    column. *)
Definition loc (df : DataFrame) (label : scalar) : option (list scalar) :=
  if existsb (scalar_eqb label) (index df) then
    Some (map (fun c => match assoc label (combine (index df) (snd c)) with
                        | Some v => v
                        | None => NaN
                        end) (columns df))
  else None.

(** [series.apply(f)]: [f] is called on the values in row order; an
    exception raised by a call propagates and no Series is returned. *)
Fixpoint apply (f : scalar -> Py.result scalar) (s : Series) : Py.result Series :=
  match s with
  | [] => Py.ret []
  | (label, v) :: s' =>
      y <- f v ;;
      ys <- apply f s' ;;
      Py.ret ((label, y) :: ys)
  end.

(** The labels of an outer join: those of the left table, then those of the
    right table that the left one lacks.  (pandas versions differ on whether
    this union is also sorted; no property below depends on the order.) *)
Definition union_index (i j : list scalar) : list scalar :=
  i ++ filter (fun l => negb (existsb (scalar_eqb l) i)) j.

(** [column.reindex(new_index)]: cells are carried by label; a label the
    column lacks gets [NaN]. *)
Definition reindex (old_index cells new_index : list scalar) : list scalar :=
  map (fun l => match assoc l (combine old_index cells) with
                | Some v => v
                | None => NaN
                end) new_index.

(** [pd.concat([a, b], axis=1)]: the columns of [a] followed by those of
    [b], rows matched by label (an outer join on the index).  Tables with
    identical indexes are glued as they are.  Otherwise the labels of each
    table are taken to be distinct: pandas refuses to match rows by a label
    that is repeated. *)
Definition concat_axis1 (a b : DataFrame) : DataFrame :=
  if index_eqb (index a) (index b) then
    {| index := index a; columns := columns a ++ columns b |}
  else
    let ix := union_index (index a) (index b) in
    {| index := ix;
       columns :=
         map (fun c => (fst c, reindex (index a) (snd c) ix)) (columns a)
         ++ map (fun c => (fst c, reindex (index b) (snd c) ix)) (columns b) |}.

(** *** Reading a delimited file *)

(** A delimited file split into fields: the names of the header line and
    the records, one list of fields per line of data. *)
Record csv_file : Type := mkCsv {
  header : list string;
  records : list (list string)
}.

(** The files reachable by path: [None] when no file is there, an exception
    when the bytes of the file cannot be split into lines of fields (an
    undecodable byte, a quote left open), the header and the records
    otherwise. *)
Definition filesystem : Type := string -> option (Py.result csv_file).

(** The strings pandas reads as a missing value by default, as of the
    releases before 1.0.  Later releases read more strings as missing, so
    [read_csv] below takes the list in force as a parameter. *)
Definition default_na_values : list string :=
  [""; "#N/A"; "#N/A N/A"; "#NA"; "-1.#IND"; "-1.#QNAN"; "-NaN"; "-nan";
   "1.#IND"; "1.#QNAN"; "N/A"; "NA"; "NULL"; "NaN"; "n/a"; "nan"; "null"].

Definition is_na (na_values : list string) (field : string) : bool :=
  existsb (String.eqb field) na_values.

(** A column read with [dtype=str]: every field is kept as the string it
    is, a missing-value marker becoming [NaN]. *)
Definition as_str (na_values : list string) (fields : list string) : list scalar :=
  map (fun f => if is_na na_values f then NaN else Str f) fields.

(** A record with more fields than the header has names. *)
Definition too_long (f : csv_file) : bool :=
  existsb (fun record => Nat.ltb (length (header f)) (length record)) (records f).

Fixpoint position (name : string) (names : list string) : option nat :=
  match names with
  | [] => None
  | n :: names' =>
      if String.eqb name n then Some 0
      else option_map S (position name names')
  end.

(** The fields of column [j], record by record. *)
Definition fields_of (j : nat) (f : csv_file) : list string :=
  map (fun record => nth j record "") (records f).

Section ReadCsv.

(** The type inference pandas applies to a column read without a [dtype]
    (integers, floats, booleans, strings). *)
Variable infer : list string -> list scalar.

(** The missing-value markers of the pandas release in use. *)
Variable na_values : list string.

(** [pd.read_csv(path, index_col=index_col, dtype=dtype)] with [dtype] a
    dict from column names to [str].  A missing file raises
    [FileNotFoundError]; a file that cannot be split into fields raises the
    tokenizer's exception; a file without a header line raises
    [EmptyDataError]; a record with more fields than the header raises
    [ParserError], a shorter one is completed with empty fields; an
    [index_col] that is no column of the file raises [ValueError]; a [dtype]
    key that is no column of the file is ignored.  No other column is looked
    for. *)
Definition read_csv (fs : filesystem) (path : string) (index_col : string)
    (dtype : list string) : Py.result DataFrame :=
  match fs path with
  | None => Py.raise Py.FileNotFoundError
  | Some (inl e) => Py.raise e
  | Some (inr f) =>
      match header f with
      | [] => Py.raise (Py.OtherError "EmptyDataError")
      | _ :: _ =>
          if too_long f then Py.raise (Py.OtherError "ParserError")
          else
            match position index_col (header f) with
            | None =>
                Py.raise (Py.ValueError ("Index " ++ index_col ++ " invalid")%string)
            | Some k =>
                let convert (jn : nat * string) : string * list scalar :=
                  (snd jn,
                   if Py.contains dtype (snd jn)
                   then as_str na_values (fields_of (fst jn) f)
                   else infer (fields_of (fst jn) f)) in
                Py.ret
                  {| index := infer (fields_of k f);
                     columns :=
                       map convert
                         (filter (fun jn => negb (Nat.eqb (fst jn) k))
                            (combine (seq 0 (length (header f))) (header f))) |}
            end
      end
  end.

End ReadCsv.

End Pandas.

(** ** numpy (external) *)

Module Numpy.

Section Argsort.

(** The entries of an array and their order.  Only the order of the entries
    matters to [argsort], so the entry type is left open. *)
Context {W : Type}.
Variable leb : W -> W -> bool.

Fixpoint insert_by (p : nat * W) (l : list (nat * W)) : list (nat * W) :=
  match l with
  | [] => [p]
  | q :: l' => if leb (snd p) (snd q) then p :: l else q :: insert_by p l'
  end.

(** [a.argsort()]: the positions of [a], ordered by ascending entry.  Equal
    entries keep their relative order here; numpy leaves that order open and
    no property below depends on it. *)
Definition argsort (a : list W) : list nat :=
  map fst (fold_right insert_by [] (combine (seq 0 (length a)) a)).

End Argsort.

(** Python's order on strings, by code point: strictly below, and below or
    equal. *)
Definition str_lt (a b : string) : Prop := String.ltb a b = true.
Definition str_le (a b : string) : Prop := String.leb a b = true.

Fixpoint insert_sorted (x : string) (l : list string) : list string :=
  match l with
  | [] => [x]
  | y :: l' => if String.leb x y then x :: l else y :: insert_sorted x l'
  end.

(** [np.sort] on an array of strings: ascending by code point. *)
Definition sort (a : list string) : list string :=
  fold_right insert_sorted [] a.

(** Dropping the repeats of a sorted array ([ar[1:] != ar[:-1]]). *)
Fixpoint drop_repeats (a : list string) : list string :=
  match a with
  | [] => []
  | x :: a' =>
      match a' with
      | [] => [x]
      | y :: _ => if String.eqb x y then drop_repeats a' else x :: drop_repeats a'
      end
  end.

(** [np.unique(a)]: the sorted distinct entries. *)
Definition unique (a : list string) : list string :=
  drop_repeats (sort a).

(** [np.searchsorted(a, v)] on a sorted array: the position of the first
    entry that is not below [v]. *)
Fixpoint searchsorted (a : list string) (v : string) : nat :=
  match a with
  | [] => 0
  | x :: a' => if String.ltb x v then S (searchsorted a' v) else 0
  end.

End Numpy.

(** ** scikit-learn (external) *)

Module Sklearn.

(** *** LabelEncoder *)

(** Modelled from the spec: [LabelEncoder] is scikit-learn's, not the
    notebook's; section 4.5 describes it as a bijection from the distinct
    category strings, sorted, onto [0, k), with the inverse retrievable.
    [classes_] is [np.unique] of the labels, a label is encoded as its
    position in [classes_], and an id is decoded by indexing [classes_]. *)
Definition fit (y : list string) : list string :=
  Numpy.unique y.

(** [enc.transform([label])] on a fitted encoder. *)
Definition encode (classes_ : list string) (label : string) : Py.result nat :=
  if Py.contains classes_ label
  then Py.ret (Numpy.searchsorted classes_ label)
  else Py.raise (Py.ValueError "y contains previously unseen labels").

(** [enc.inverse_transform([i])] on a fitted encoder. *)
Definition decode (classes_ : list string) (i : nat) : Py.result string :=
  match nth_error classes_ i with
  | Some label => Py.ret label
  | None => Py.raise (Py.ValueError "y contains previously unseen labels")
  end.

(** [enc.fit_transform(y)]: the fitted classes and the encoded labels
    ([np.unique(y, return_inverse=True)]). *)
Definition fit_transform (y : list string) : list string * list nat :=
  let classes_ := fit y in
  (classes_, map (Numpy.searchsorted classes_) y).

(** *** CountVectorizer / TfidfVectorizer: the vocabulary *)

Section Vectorizer.

(** [build_analyzer()]: lower-casing and tokenization of one document. *)
Variable analyzer : string -> list string.

(** The terms of the corpus in first-seen order, without repeats. *)
Fixpoint first_seen (terms seen : list string) : list string :=
  match terms with
  | [] => []
  | t :: terms' =>
      if Py.contains seen t then first_seen terms' seen
      else t :: first_seen terms' (t :: seen)
  end.

Definition count_vocab (raw_documents : list string) : list string :=
  first_seen (flat_map analyzer raw_documents) [].

(** The number of documents a term occurs in. *)
Definition document_frequency (raw_documents : list string) (term : string) : nat :=
  length (filter (fun d => Py.contains (analyzer d) term) raw_documents).

(** The number of occurrences of a term in the corpus. *)
Definition term_frequency (raw_documents : list string) (term : string) : nat :=
  length (filter (String.eqb term) (flat_map analyzer raw_documents)).

(** [_limit_features]: the terms whose document frequency lies in
    [low, high]; when more than [limit] of them remain, the [limit] most
    frequent ones ([(-tfs[mask]).argsort()[:limit]]), kept in vocabulary
    order. *)
Definition limit_features (raw_documents : list string)
    (vocabulary : list string) (high low limit : nat) : list string :=
  let in_range t :=
    let dfs := document_frequency raw_documents t in
    Nat.leb dfs high && Nat.leb low dfs in
  let masked := filter in_range vocabulary in
  if Nat.ltb limit (length masked) then
    let tfs := map (fun t => Z.opp (Z.of_nat (term_frequency raw_documents t))) masked in
    let mask_inds := firstn limit (Numpy.argsort Z.leb tfs) in
    map snd
      (filter (fun jt => existsb (Nat.eqb (fst jt)) mask_inds)
         (combine (seq 0 (length masked)) masked))
  else masked.

(** Modelled from the spec: the vectorizers are scikit-learn's, not the
    notebook's; section 4.4 gives their two knobs, the maximum vocabulary
    size (the top-N most frequent qualifying terms) and the maximum document
    frequency (an absolute count of documents).  This is the vocabulary of
    [CountVectorizer(max_df=max_df, max_features=max_features).fit(...)],
    with [min_df] at its default 1; [TfidfVectorizer] resolves its
    vocabulary the same way.  The resolved vocabulary is sorted; a fit that
    leaves no term raises. *)
Definition fit_vocabulary (max_df max_features : nat)
    (raw_documents : list string) : Py.result (list string) :=
  let vocabulary := count_vocab raw_documents in
  match vocabulary with
  | [] => Py.raise (Py.ValueError "empty vocabulary")
  | _ :: _ =>
      let min_df := 1 in
      if Nat.ltb max_df min_df
      then Py.raise (Py.ValueError "max_df corresponds to < documents than min_df")
      else
        match limit_features raw_documents (Numpy.sort vocabulary)
                max_df min_df max_features with
        | [] => Py.raise (Py.ValueError "After pruning, no terms remain")
        | t :: ts => Py.ret (t :: ts)
        end
  end.

End Vectorizer.

(** *** train_test_split *)

Section Split.

(** numpy's random generator: its state, seeding, and the permutation it
    draws of [0 .. n-1]. *)
Variable rng : Type.
Variable RandomState : Z -> rng.
Variable permutation : rng -> nat -> list nat.

(** [check_random_state(seed)]: an integer seeds a fresh generator; [None]
    takes the process-wide one. *)
Definition check_random_state (global_rng : rng) (seed : option Z) : rng :=
  match seed with
  | None => global_rng
  | Some s => RandomState s
  end.

(** The default holdout: [ceil(0.25 * n)] test rows, the rest for
    training. *)
Definition n_test (n_samples : nat) : nat := (n_samples + 3) / 4.
Definition n_train (n_samples : nat) : nat := n_samples - n_test n_samples.

(** [safe_indexing(a, indices)] *)
Definition take {A : Type} (a : list A) (indices : list nat) : Py.result (list A) :=
  Py.mapM (Py.list_getitem a) indices.

(** The train and test positions [ShuffleSplit] draws. *)
Definition shuffle_split (global_rng : rng) (random_state : option Z)
    (n_samples : nat) : list nat * list nat :=
  let r := check_random_state global_rng random_state in
  let perm := permutation r n_samples in
  let ind_test := firstn (n_test n_samples) perm in
  let ind_train := firstn (n_train n_samples) (skipn (n_test n_samples) perm) in
  (ind_train, ind_test).

(** [train_test_split(X, y, random_state=random_state)]: both arrays are
    indexed by the same train and test positions.  Arrays of different
    lengths are refused, and so is a split that leaves no training row. *)
Definition train_test_split {A B : Type} (global_rng : rng)
    (X : list A) (y : list B) (random_state : option Z)
    : Py.result (list A * list A * list B * list B) :=
  if negb (Nat.eqb (length X) (length y))
  then Py.raise (Py.ValueError "inconsistent numbers of samples")
  else if Nat.eqb (n_train (length X)) 0
  then Py.raise (Py.ValueError "the resulting train set will be empty")
  else
    let (ind_train, ind_test) := shuffle_split global_rng random_state (length X) in
    X_train <- take X ind_train ;;
    X_test <- take X ind_test ;;
    y_train <- take y ind_train ;;
    y_test <- take y ind_test ;;
    Py.ret (X_train, X_test, y_train, y_test).

End Split.

End Sklearn.

(** ** The notebook's cells *)

Module Notebook.
Import Spacy Pandas.

(** *** Reading the dataset *)

(** [df = pd.read_csv('chistes.csv', index_col='id', dtype={'text':str})] *)
Definition load (infer : list string -> list scalar) (na_values : list string)
    (fs : filesystem) : Py.result DataFrame :=
  read_csv infer na_values fs "chistes.csv" "id" ["text"].

(** *** Filtering words *)

(** A function of a text applied to a cell.  The cells of the notebook's
    text column are strings; a cell that is no string (a missing text is
    the float [NaN]) is refused with the [TypeError] that the spaCy release
    behind [spacy.load('es')] answers to such an argument. *)
Definition on_text (f : string -> Py.result string) (v : scalar) : Py.result scalar :=
  match v with
  | Str s => r <- f s ;; Py.ret (Str r)
  | _ => Py.raise Py.TypeError
  end.

(** [df['text'].apply(keep_only_content_words)], the value assigned to
    [df['filtered_text']]. *)
Definition filter_texts (nlp : Language) (texts : Series) : Py.result Series :=
  apply (on_text (Filter.keep_only_content_words nlp)) texts.

Definition filtered_text (nlp : Language) (df : DataFrame) : Py.result Series :=
  texts <- getitem df "text" ;;
  filter_texts nlp texts.

(** *** Vectorizers *)

Definition max_jokes_with_that_word : nat := 200.

(** [CountVectorizer(max_df=max_jokes_with_that_word, max_features=20)] *)
Definition vectorizer20 (analyzer : string -> list string)
    (texts : list string) : Py.result (list string) :=
  Sklearn.fit_vocabulary analyzer max_jokes_with_that_word 20 texts.

(** [TfidfVectorizer(max_df=max_jokes_with_that_word, max_features=500)] *)
Definition tfidf_vectorizer (analyzer : string -> list string)
    (texts : list string) : Py.result (list string) :=
  Sklearn.fit_vocabulary analyzer max_jokes_with_that_word 500 texts.

(** [counted = pd.DataFrame(data=bag_of_words.toarray(), index=df.index,
    columns=vectorizer20.get_feature_names())] *)
Definition counted (df : DataFrame) (bag_of_words : list (list scalar))
    (feature_names : list string) : DataFrame :=
  DataFrame_of_rows bag_of_words (Some (index df)) feature_names.

(** *** Labels *)

(** [df['y'] = y]: the column of ids, stored row by row under the labels
    of the table. *)
Definition id_column (labels : list scalar) (ids : list nat) : Series :=
  combine labels (map (fun i => Int (Z.of_nat i)) ids).

(** [y = enc.fit_transform(df.category)] and [df['y'] = y]: the fitted
    classes and the column of encoded ids. *)
Definition encode_categories (category : list (scalar * string))
    : list string * Series :=
  let (classes_, y) := Sklearn.fit_transform (map snd category) in
  (classes_, id_column (map fst category) y).

(** *** Train a ML algorithm *)

Section Classification.

Variable analyzer : string -> list string.

Variable rng : Type.
Variable RandomState : Z -> rng.
Variable permutation : rng -> nat -> list nat.

(** A row of the tf-idf matrix, and the weighting of one document against
    the fitted vocabulary and corpus. *)
Variable row : Type.
Variable tfidf_row : list string -> list string -> string -> row.

(** [RandomForestClassifier(n_estimators=n, random_state=seed).fit(X, y)]
    and [clf.predict]. *)
Variable forest : Type.
Variable forest_fit : rng -> nat -> list row -> list nat -> forest.
Variable forest_predict : forest -> row -> nat.

Definition number_of_trees : nat := 200.

(** [clf.score(X, y)]: the number of exact label matches and the number of
    rows; the accuracy is their quotient. *)
Definition score (clf : forest) (X : list row) (y : list nat) : nat * nat :=
  (length (filter (fun xy => Nat.eqb (forest_predict clf (fst xy)) (snd xy))
             (combine X y)),
   length X).

(** What one run of the cells from the tf-idf vectorizer to the scores
    leaves behind. *)
Record outcome : Type := mkOutcome {
  important_words : list string;
  X_train : list row;
  X_test : list row;
  y_train : list nat;
  y_test : list nat;
  train_score : nat * nat;
  test_score : nat * nat
}.

(** The cells "Real vectorizer with tf-idf" and "Train a ML algorithm",
    run in a process whose numpy generator is in state [global_rng]. *)
Definition split_train_evaluate (global_rng : rng)
    (filtered_text category : list string) : Py.result outcome :=
  words <- tfidf_vectorizer analyzer filtered_text ;;
  let X := map (tfidf_row words filtered_text) filtered_text in
  let y := snd (Sklearn.fit_transform category) in
  parts <- Sklearn.train_test_split rng RandomState permutation
             global_rng X y (Some 1%Z) ;;
  let '(Xtr, Xte, ytr, yte) := parts in
  let clf :=
    forest_fit (Sklearn.check_random_state rng RandomState global_rng (Some 1%Z))
      number_of_trees Xtr ytr in
  Py.ret {| important_words := words;
            X_train := Xtr; X_test := Xte; y_train := ytr; y_test := yte;
            train_score := score clf Xtr ytr;
            test_score := score clf Xte yte |}.

End Classification.

(** *** Topic modeling *)

Definition number_of_topics : nat := 10.

Section TopWords.

(** The entries of [model.components_] and their order. *)
Context {W : Type}.
Variable leb : W -> W -> bool.

(** [[feature_names[i] for i in topic.argsort()[:-n_top_words - 1:-1]]] *)
Definition top_terms (feature_names : list string) (n_top_words : nat)
    (topic : list W) : Py.result (list string) :=
  Py.mapM (Py.list_getitem feature_names)
    (Py.slice_backwards (Numpy.argsort leb topic) (- Z.of_nat n_top_words - 1)).

(** The body of the loop of [print_top_words]: the line printed for one
    topic. *)
Definition topic_message (feature_names : list string) (n_top_words : nat)
    (entry : nat * list W) : Py.result string :=
  let message := ("Topic #" ++ Py.format_d (fst entry) ++ ": ")%string in
  terms <- top_terms feature_names n_top_words (snd entry) ;;
  Py.ret (message ++ Py.join " " terms)%string.

(** [def print_top_words(model, feature_names, n_top_words)]: the lines it
    prints, in order. *)
Definition print_top_words (components_ : list (list W))
    (feature_names : list string) (n_top_words : nat) : Py.result (list string) :=
  Py.mapM (topic_message feature_names n_top_words)
    (combine (seq 0 (length components_)) components_).

End TopWords.

(** [[f'topic_{x}' for x in range(0,10)]] *)
Definition topic_columns : list string :=
  map (fun x => ("topic_" ++ Py.format_d x)%string) (seq 0 10).

(** [jokes_with_topics_weights = pd.concat([df, pd.DataFrame(topics,
    columns=[...])], axis=1)] *)
Definition jokes_with_topics_weights (df : DataFrame)
    (topics : list (list scalar)) : DataFrame :=
  concat_axis1 df (DataFrame_of_rows topics None topic_columns).

(** *** Visualization *)



End Notebook.

(** ** Sample inputs *)

Module Samples.
Import Spacy Pandas.

Definition tok (text lemma pos : string) : Token :=
  mkToken text lemma pos "" false.

(** An annotator that tags "bajo" by its context, as the notebook observes
    of the Spanish model ("Bajo con un tipo bajo a tocar el bajo bajo la
    escalera"): a noun after an article, a preposition on its own. *)
Definition nlp_bajo : Language :=
  fun s =>
    if String.eqb s "el bajo" then
      Py.ret [tok "el" "el" "DET"; tok "bajo" "bajo" "NOUN"]
    else if String.eqb s "bajo" then
      Py.ret [tok "bajo" "bajo" "ADP"]
    else Py.ret [].

(** An annotator that tags the same word the same way wherever it stands. *)
Definition nlp_perro : Language :=
  fun s =>
    if String.eqb s "El perro ladra." then
      Py.ret [tok "El" "El" "DET"; tok "perro" "perro" "NOUN";
              tok "ladra" "ladrar" "VERB"; tok "." "." "PUNCT"]
    else if String.eqb s "perro ladrar" then
      Py.ret [tok "perro" "perro" "NOUN"; tok "ladrar" "ladrar" "VERB"]
    else Py.ret [].

(** An annotator that rejects an empty text. *)
Definition nlp_strict : Language :=
  fun s =>
    if String.eqb s "" then Py.raise (Py.OtherError "AnnotationError")
    else Py.ret [tok s s "NOUN"].

(** Two jokes, the first with an empty text. *)
Definition texts_with_empty : Series :=
  [(Int 1, Str ""); (Int 2, Str "hola")].

(** A column inference that reads a column of decimal numerals as integers
    and any other column as strings. *)
Definition digit_of (c : ascii) : option Z :=
  let n := nat_of_ascii c in
  if Nat.leb 48 n && Nat.leb n 57 then Some (Z.of_nat (n - 48)) else None.

Fixpoint parse_digits (s : string) (acc : Z) : option Z :=
  match s with
  | EmptyString => Some acc
  | String c s' =>
      match digit_of c with
      | Some d => parse_digits s' (10 * acc + d)%Z
      | None => None
      end
  end.

Definition parse_int (s : string) : option Z :=
  match s with
  | EmptyString => None
  | String _ _ => parse_digits s 0%Z
  end.

Fixpoint parse_all (fields : list string) : option (list Z) :=
  match fields with
  | [] => Some []
  | f :: fields' =>
      match parse_int f, parse_all fields' with
      | Some z, Some zs => Some (z :: zs)
      | _, _ => None
      end
  end.

Definition infer_int (fields : list string) : list scalar :=
  match parse_all fields with
  | Some zs => map Int zs
  | None => as_str default_na_values fields
  end.

(** A file with the three columns; the text of the second joke is a
    numeral. *)
Definition chistes_csv : csv_file :=
  {| header := ["id"; "text"; "category"];
     records := [["1"; "Van dos y se cae el del medio"; "otros"];
                 ["2"; "1234"; "otros"]] |}.

(** A file without the category column. *)
Definition no_category_csv : csv_file :=
  {| header := ["id"; "text"];
     records := [["1"; "Van dos y se cae el del medio"]] |}.

(** A file without the id column. *)
Definition no_id_csv : csv_file :=
  {| header := ["text"; "category"];
     records := [["Van dos y se cae el del medio"; "otros"]] |}.

Definition only (f : csv_file) : filesystem :=
  fun path => if String.eqb path "chistes.csv" then Some (inr f) else None.

Definition no_file : filesystem := fun _ => None.

(** A file named as expected whose bytes do not decode. *)
Definition undecodable : filesystem :=
  fun path =>
    if String.eqb path "chistes.csv"
    then Some (inl (Py.OtherError "UnicodeDecodeError"))
    else None.

(** The markers of a later pandas release. *)
Definition later_na_values : list string :=
  "<NA>" :: Pandas.default_na_values.

(** A file whose second joke reads [<NA>]. *)
Definition marked_csv : csv_file :=
  {| header := ["id"; "text"];
     records := [["1"; "Van dos y se cae el del medio"]; ["2"; "<NA>"]] |}.

(** Two jokes whose ids start at 1, and their topic weights: the first joke
    belongs to topic 0, the second to topic 1. *)
Definition two_jokes : DataFrame :=
  {| index := [Int 1; Int 2];
     columns := [("text", [Str "primero"; Str "segundo"]);
                 ("category", [Str "otros"; Str "animales"])] |}.

Definition weights_on (k : nat) : list scalar :=
  map (fun j => if Nat.eqb j k then Float 91 100 else Float 1 100) (seq 0 10).

Definition two_topics : list (list scalar) :=
  [weights_on 0; weights_on 1].

(** The same jokes with ids starting at 0. *)
Definition two_jokes_from_zero : DataFrame :=
  {| index := [Int 0; Int 1]; columns := columns two_jokes |}.

(** Ten topics over a vocabulary of nine terms. *)
Definition nine_terms : list string :=
  ["casa"; "doctor"; "hijo"; "jaimito"; "mama"; "perro"; "tener"; "ver"; "vez"].

Definition ten_topics : list (list Z) :=
  map (fun k => map (fun j => Z.of_nat ((j * (k + 2)) mod 7)) (seq 0 9)) (seq 0 10).


Definition seven_categories : list (scalar * string) :=
  combine (RangeIndex 7)
    ["otros"; "animales"; "familia"; "sexo"; "profesiones"; "tecnologia"; "jaimito"].

(** A whitespace analyzer over a fixed small corpus of filtered texts. *)
Definition words_of (doc : string) : list string :=
  if String.eqb doc "perro ladrar" then ["perro"; "ladrar"]
  else if String.eqb doc "perro comer" then ["perro"; "comer"]
  else if String.eqb doc "doctor ver" then ["doctor"; "ver"]
  else [].

Definition small_corpus : list string :=
  ["perro ladrar"; "perro comer"; "doctor ver"].

(** A generator whose state is a number, and whose permutation rotates
    [0 .. n-1] by the state. *)
Definition rotate (state n : nat) : list nat :=
  map (fun i => (i + state) mod n) (seq 0 n).

(** A classifier that memorizes its training rows and predicts class 0 for
    a row it has not seen; the rows are the texts themselves. *)
Definition memorize (state n_estimators : nat) (X : list string) (y : list nat)
    : list (string * nat) :=
  combine X y.

Fixpoint recall (clf : list (string * nat)) (x : string) : nat :=
  match clf with
  | [] => 0
  | (x', label) :: clf' => if String.eqb x x' then label else recall clf' x
  end.

Definition text_row (vocabulary corpus : list string) (doc : string) : string :=
  doc.

End Samples.

(** ** Python strings as text *)

Module Text.

(** A string is held as its UTF-8 bytes.  [len(s)] counts characters, that
    is the bytes that do not continue a character ([10xxxxxx]). *)
Definition is_continuation (c : ascii) : bool :=
  let n := nat_of_ascii c in
  Nat.leb 128 n && Nat.ltb n 192.

Fixpoint code_points (s : string) : nat :=
  match s with
  | EmptyString => 0
  | String c s' => (if is_continuation c then 0 else 1) + code_points s'
  end.

(** [len(s)] for a text. *)
Definition len (s : string) : Z := Z.of_nat (code_points s).

(** The line feed. *)
Definition newline : string := String (ascii_of_nat 10) EmptyString.

End Text.

(** ** pandas: assigning columns, positional rows, boolean masks *)

Module Frames.
Import Pandas.

(** A column assigned under [name]: it replaces the column of that name
    where it stands, or is added after the last column. *)
Fixpoint put_column (name : string) (cells : list scalar)
    (cols : list (string * list scalar)) : list (string * list scalar) :=
  match cols with
  | [] => [(name, cells)]
  | (n, old) :: cols' =>
      if String.eqb name n then (n, cells) :: cols'
      else (n, old) :: put_column name cells cols'
  end.

Fixpoint has_repeats (labels : list scalar) : bool :=
  match labels with
  | [] => false
  | l :: labels' => existsb (scalar_eqb l) labels' || has_repeats labels'
  end.

(** [df[name] = series]: the values are matched to the rows of [df] by
    label.  A Series with the index of [df] is taken as it is; any other is
    reindexed, a row without a value getting [NaN], and a Series with a
    repeated label cannot be reindexed. *)
Definition setitem_series (df : DataFrame) (name : string) (s : Series)
    : Py.result DataFrame :=
  if index_eqb (map fst s) (index df) then
    Py.ret {| index := index df;
              columns := put_column name (map snd s) (columns df) |}
  else if has_repeats (map fst s) then
    Py.raise (Py.ValueError "cannot reindex on an axis with duplicate labels")
  else
    Py.ret {| index := index df;
              columns := put_column name
                           (reindex (map fst s) (map snd s) (index df))
                           (columns df) |}.

(** [df.iloc[p]] for a position [p >= 0]: the row at that position, as the
    cells under their column names. *)
Definition iloc (df : DataFrame) (p : nat) : Py.result (list (string * scalar)) :=
  if Nat.ltb p (n_rows df)
  then Py.ret (map (fun c => (fst c, nth p (snd c) NaN)) (columns df))
  else Py.raise Py.IndexError.

(** [row[name]] *)
Fixpoint row_getitem (row : list (string * scalar)) (name : string)
    : Py.result scalar :=
  match row with
  | [] => Py.raise (Py.KeyError name)
  | (n, v) :: row' => if String.eqb name n then Py.ret v else row_getitem row' name
  end.

(** [series > num/den] for one cell.  A missing value compares false; a
    string cannot be compared with a number. *)
Definition gt (num : Z) (den : positive) (v : scalar) : Py.result bool :=
  match v with
  | Float n d => Py.ret (num * Z.pos d <? n * Z.pos den)%Z
  | Int z => Py.ret (num <? z * Z.pos den)%Z
  | NaN => Py.ret false
  | Str _ => Py.raise Py.TypeError
  end.

(** Whether a cell is a number above [num/den]. *)
Definition is_above (num : Z) (den : positive) (v : scalar) : bool :=
  match gt num den v with
  | inr b => b
  | inl _ => false
  end.

(** The entries of a list at the positions where the mask holds. *)
Fixpoint where_true {A : Type} (mask : list bool) (xs : list A) : list A :=
  match mask, xs with
  | m :: mask', x :: xs' =>
      if m then x :: where_true mask' xs' else where_true mask' xs'
  | _, _ => []
  end.

(** [df[mask]] for a boolean mask with one entry per row. *)
Definition select (df : DataFrame) (mask : list bool) : DataFrame :=
  {| index := where_true mask (index df);
     columns := map (fun c => (fst c, where_true mask (snd c))) (columns df) |}.

End Frames.

(** ** More cells of the notebook *)

Module Cells.
Import Spacy Pandas Frames Notebook.

(** [lambda t: len(t)]: a cell that is no string has no length. *)
Definition text_length (t : scalar) : Py.result scalar :=
  match t with
  | Str s => Py.ret (Int (Text.len s))
  | _ => Py.raise Py.TypeError
  end.

(** [df['text'].apply(lambda t: len(t))] *)
Definition text_lengths (texts : Series) : Py.result Series :=
  apply text_length texts.

(** [df['len'] = df['text'].apply(lambda t: len(t))] *)
Definition add_len (df : DataFrame) : Py.result DataFrame :=
  texts <- getitem df "text" ;;
  lens <- text_lengths texts ;;
  setitem_series df "len" lens.

(** [random_joke = df.iloc[10]['text']] *)
Definition random_joke (df : DataFrame) : Py.result scalar :=
  row <- iloc df 10 ;;
  row_getitem row "text".

(** [df['filtered_text'] = df['text'].apply(keep_only_content_words)] *)
Definition add_filtered_text (nlp : Language) (df : DataFrame)
    : Py.result DataFrame :=
  filtered <- filtered_text nlp df ;;
  setitem_series df "filtered_text" filtered.



(** [lambda s: print(s+'\n\n')]: the text written to the output; a cell
    that is no string cannot be added to a string. *)
Definition print_joke (t : scalar) : Py.result string :=
  match t with
  | Str s => Py.ret (s ++ Text.newline ++ Text.newline ++ Text.newline)%string
  | _ => Py.raise Py.TypeError
  end.

(** [topic1 = jokes_with_topics_weights[jokes_with_topics_weights['topic_1']
    > 0.75]] *)
Definition topic1 (jokes : DataFrame) : Py.result DataFrame :=
  weights <- getitem jokes "topic_1" ;;
  mask <- Py.mapM (fun lv => gt 3 4 (snd lv)) weights ;;
  Py.ret (select jokes mask).

(** [topic1['text'].apply(lambda s: print(s+'\n\n'))]: what the cell
    writes, joke by joke. *)
Definition print_topic1 (jokes : DataFrame) : Py.result (list string) :=
  selected <- topic1 jokes ;;
  texts <- getitem selected "text" ;;
  Py.mapM (fun lv => print_joke (snd lv)) texts.

End Cells.

(** ** Documents and tokens *)

Module Corpus.

(** A document the analyzer finds a token in. *)
Definition has_token (analyzer : string -> list string) (doc : string) : bool :=
  match analyzer doc with
  | [] => false
  | _ :: _ => true
  end.

End Corpus.

(** ** More sample inputs *)

Module MoreSamples.
Import Pandas.

(** A file whose second joke has an empty text. *)
Definition empty_text_csv : csv_file :=
  {| header := ["id"; "text"; "category"];
     records := [["0"; "Van dos y se cae el del medio"; "otros"];
                 ["1"; ""; "otros"]] |}.

(** Twelve jokes with ids from 0. *)
Definition twelve_jokes : DataFrame :=
  {| index := RangeIndex 12;
     columns := [("text", map (fun k => Str ("chiste " ++ Py.format_d k)%string)
                            (seq 0 12));
                 ("category", repeat (Str "otros") 12)] |}.

(** The entries of a topic, by position. *)
Definition a_topic : list Z := [3; 9; 1; 7; 7; 0; 5; 2; 8; 4]%Z.

Definition ten_names : list string :=
  ["casa"; "doctor"; "hijo"; "jaimito"; "mama"; "perro"; "tener"; "ver";
   "vez"; "vida"].

(** A corpus with a document that has no token. *)
Definition corpus_with_gap : list string :=
  ["perro ladrar"; ""; "perro comer"; "doctor ver"].

End MoreSamples.

(* ===================================================================== *)
(** * Part II: proofs                                                     *)
(* ===================================================================== *)

(** ** Python sequences *)

Section PyFacts.


Lemma contains_true_iff (t : list string) (x : string) :
  Py.contains t x = true <-> In x t.
Proof.
  unfold Py.contains. rewrite existsb_exists. split.
  - intros [y [Hin Heq]]. apply String.eqb_eq in Heq. now subst.
  - intros Hin. exists x. split; [assumption | apply String.eqb_refl].
Qed.

(** [mapM] over calls that all return collects the results in order. *)
Lemma mapM_all_return {A B : Type} (f : A -> Py.result B) (xs : list A) (ys : list B) :
  Forall2 (fun x y => f x = inr y) xs ys -> Py.mapM f xs = inr ys.
Proof.
  induction 1 as [| x y xs ys Hxy _ IH]; simpl.
  - reflexivity.
  - rewrite Hxy. simpl. rewrite IH. reflexivity.
Qed.

Lemma mapM_return_inv {A B : Type} (f : A -> Py.result B) (xs : list A) (ys : list B) :
  Py.mapM f xs = inr ys -> Forall2 (fun x y => f x = inr y) xs ys.
Proof.
  revert ys. induction xs as [| x xs IH]; simpl; intros ys H.
  - injection H as <-. constructor.
  - destruct (f x) as [e | y] eqn:Hfx; simpl in H; [discriminate |].
    destruct (Py.mapM f xs) as [e | ys'] eqn:Hrest; simpl in H; [discriminate |].
    injection H as <-. constructor; auto.
Qed.

(** Indexing a list at positions that are all in range returns as many
    entries as positions, each an entry of the list. *)
Lemma mapM_getitem_in_range {A : Type} (xs : list A) (positions : list nat) :
  Forall (fun p => p < length xs) positions ->
  exists ys, Py.mapM (Py.list_getitem xs) positions = inr ys
             /\ length ys = length positions
             /\ incl ys xs.
Proof.
  induction 1 as [| p ps Hp _ [ys [Hys [Hlen Hincl]]]].
  - exists []. repeat split. intros y [].
  - destruct (nth_error xs p) as [x |] eqn:Hnth.
    + exists (x :: ys). simpl. unfold Py.list_getitem at 1. rewrite Hnth. simpl.
      rewrite Hys. simpl. repeat split.
      * now rewrite Hlen.
      * intros y [<- | Hy]; [eapply nth_error_In; eassumption | auto].
    + apply nth_error_None in Hnth. lia.
Qed.

End PyFacts.

(** ** The content filter *)

Section FilterFacts.
Import Spacy Filter.

Lemma is_content_iff (t : Token) :
  is_content t = true <-> ContentPos (pos_ t).
Proof.
  unfold is_content. rewrite contains_true_iff. unfold content_tags, ContentPos.
  simpl. intuition congruence.
Qed.

(** The loop of the comprehension, started from any list built so far. *)
Lemma comprehension_loop (processed : Doc) (result : list string) :
  fold_left
    (fun result token =>
       if is_content token then result ++ [lemma_ token] else result)
    processed result
  = result ++ map lemma_ (filter is_content processed).
Proof.
  revert result. induction processed as [| t d IH]; intros result; simpl.
  - now rewrite app_nil_r.
  - rewrite IH. destruct (is_content t); simpl.
    + now rewrite <- app_assoc.
    + reflexivity.
Qed.

Lemma content_lemmas_filter (processed : Doc) :
  content_lemmas processed = map lemma_ (filter is_content processed).
Proof. unfold content_lemmas. now rewrite comprehension_loop. Qed.

(** The tokens the boolean test keeps are the ones the policy retains. *)
Lemma filter_Retained (processed : Doc) :
  Retained processed (filter is_content processed).
Proof.
  induction processed as [| t d IH]; simpl.
  - constructor.
  - destruct (is_content t) eqn:Ht.
    + apply Retained_keep; [now apply is_content_iff | assumption].
    + apply Retained_drop; [| assumption].
      intros H. apply is_content_iff in H. congruence.
Qed.

(** The policy retains one list of tokens only. *)
Lemma Retained_unique (processed : Doc) (k1 k2 : list Token) :
  Retained processed k1 -> Retained processed k2 -> k1 = k2.
Proof.
  intros H1. revert k2.
  induction H1 as [| t d k Hc _ IH | t d k Hn _ IH]; intros k2 H2;
    inversion H2; subst; try reflexivity; try contradiction.
  - f_equal. now apply IH.
  - now apply IH.
Qed.

Lemma filter_none (processed : Doc) :
  (forall t, In t processed -> ~ ContentPos (pos_ t)) ->
  filter is_content processed = [].
Proof.
  induction processed as [| t d IH]; simpl; intros H; [reflexivity |].
  destruct (is_content t) eqn:Ht.
  - exfalso. apply (H t); [now left | now apply is_content_iff].
  - apply IH. intros u Hu. apply H. now right.
Qed.

Lemma filter_all (processed : Doc) :
  Forall (fun t => ContentPos (pos_ t)) processed ->
  filter is_content processed = processed.
Proof.
  induction 1 as [| t d Ht _ IH]; simpl; [reflexivity |].
  apply is_content_iff in Ht. rewrite Ht. now rewrite IH.
Qed.

Lemma keep_only_content_words_unfold (nlp : Language) (s : string) (processed : Doc) :
  nlp s = inr processed ->
  keep_only_content_words nlp s
  = inr (Py.join " " (map lemma_ (filter is_content processed))).
Proof.
  intros H. unfold keep_only_content_words. rewrite H. simpl.
  now rewrite content_lemmas_filter.
Qed.

(** C2.  Whenever the annotator returns the tokens of a document, the
    content filter returns the lemmas of exactly the tokens whose coarse
    part of speech is noun, verb, adjective or adverb, in the tokens' order,
    joined by single spaces; when no token qualifies it returns the empty
    string. *)
Theorem keep_only_content_words_retains_content
    (nlp : Language) (s : string) (processed : Doc) :
  nlp s = inr processed ->
  (exists kept,
      Retained processed kept
      /\ (forall kept', Retained processed kept' -> kept' = kept)
      /\ keep_only_content_words nlp s = inr (Py.join " " (map lemma_ kept)))
  /\ ((forall t, In t processed -> ~ ContentPos (pos_ t)) ->
      keep_only_content_words nlp s = inr "").
Proof.
  intros H. split.
  - exists (filter is_content processed). split; [apply filter_Retained |]. split.
    + intros kept' Hk. eapply Retained_unique; [eassumption | apply filter_Retained].
    + now apply keep_only_content_words_unfold.
  - intros Hnone. rewrite (keep_only_content_words_unfold _ _ _ H).
    now rewrite filter_none.
Qed.

Lemma keep_only_content_words_retains_content_witness :
  (exists kept,
      Retained [Samples.tok "El" "El" "DET"; Samples.tok "perro" "perro" "NOUN";
                Samples.tok "ladra" "ladrar" "VERB"; Samples.tok "." "." "PUNCT"] kept
      /\ (forall kept',
             Retained [Samples.tok "El" "El" "DET"; Samples.tok "perro" "perro" "NOUN";
                       Samples.tok "ladra" "ladrar" "VERB"; Samples.tok "." "." "PUNCT"] kept'
             -> kept' = kept)
      /\ keep_only_content_words Samples.nlp_perro "El perro ladra."
         = inr (Py.join " " (map lemma_ kept)))
  /\ keep_only_content_words Samples.nlp_perro "El perro ladra." = inr "perro ladrar".
Proof.
  split.
  - apply (keep_only_content_words_retains_content
             Samples.nlp_perro "El perro ladra."). reflexivity.
  - reflexivity.
Defined.

End FilterFacts.

Section FilterTwice.
Import Spacy Filter.

(** C3, as stated, fails: an annotator may tag a lemma differently once its
    context is gone.  With [Samples.nlp_bajo] the text "el bajo" is filtered
    to "bajo", and filtering "bajo" again removes it. *)
Lemma keep_only_content_words_not_idempotent :
  ~ (forall (nlp : Language) (s out : string),
        keep_only_content_words nlp s = inr out ->
        keep_only_content_words nlp out = inr out).
Proof.
  intros H.
  specialize (H Samples.nlp_bajo "el bajo" "bajo" eq_refl).
  vm_compute in H. discriminate H.
Qed.

(** C3, amended.  Filtering twice returns the filtered text unchanged
    whenever the annotator, run on the filtered text, returns one token per
    retained lemma, in order, each tagged with a content part of speech and
    lemmatized to itself. *)
Theorem keep_only_content_words_idempotent_when_stable
    (nlp : Language) (s : string) (processed again : Doc) :
  nlp s = inr processed ->
  nlp (Py.join " " (content_lemmas processed)) = inr again ->
  Forall2 (fun token lemma => lemma_ token = lemma /\ ContentPos (pos_ token))
    again (content_lemmas processed) ->
  exists out,
    keep_only_content_words nlp s = inr out
    /\ keep_only_content_words nlp out = inr out.
Proof.
  intros Hfirst Hsecond Hstable.
  exists (Py.join " " (content_lemmas processed)). split.
  - unfold keep_only_content_words. now rewrite Hfirst.
  - rewrite (keep_only_content_words_unfold _ _ _ Hsecond).
    assert (Hall : Forall (fun t => ContentPos (pos_ t)) again).
    { clear Hsecond. induction Hstable as [| t l ts ls [_ Hc] _ IH]; constructor; auto. }
    assert (Hlemmas : map lemma_ again = content_lemmas processed).
    { clear Hsecond Hall.
      induction Hstable as [| t l ts ls [Hl _] _ IH]; simpl; [reflexivity |].
      now rewrite Hl, IH. }
    now rewrite (filter_all _ Hall), Hlemmas.
Qed.

Lemma keep_only_content_words_idempotent_when_stable_witness :
  exists out,
    keep_only_content_words Samples.nlp_perro "El perro ladra." = inr out
    /\ keep_only_content_words Samples.nlp_perro out = inr out.
Proof.
  apply (keep_only_content_words_idempotent_when_stable
           Samples.nlp_perro "El perro ladra."
           [Samples.tok "El" "El" "DET"; Samples.tok "perro" "perro" "NOUN";
            Samples.tok "ladra" "ladrar" "VERB"; Samples.tok "." "." "PUNCT"]
           [Samples.tok "perro" "perro" "NOUN"; Samples.tok "ladrar" "ladrar" "VERB"]).
  - reflexivity.
  - reflexivity.
  - change (content_lemmas _) with ["perro"; "ladrar"].
    constructor; [split; [reflexivity | left; reflexivity] |].
    constructor; [split; [reflexivity | right; left; reflexivity] |].
    constructor.
Defined.

End FilterTwice.

(** ** The batch filtering step *)

Section FilterBatch.
Import Spacy Pandas Filter Notebook.

(** C7, as stated, fails: the step has no handler around the annotator.
    With [Samples.nlp_strict], which rejects the empty text, the batch of
    two jokes returns no Series at all, so the rejected joke is neither
    recorded as empty nor left unfiltered, and the other joke is not
    processed. *)
Lemma filter_texts_does_not_skip :
  ~ (forall (nlp : Language) (texts : Series) (label : scalar) (s : string)
            (e : Py.exn),
        In (label, Str s) texts ->
        nlp s = inl e ->
        exists out,
          filter_texts nlp texts = inr out
          /\ length out = length texts
          /\ (In (label, Str "") out \/ In (label, Str s) out)).
Proof.
  intros H.
  destruct (H Samples.nlp_strict Samples.texts_with_empty (Int 1) ""
              (Py.OtherError "AnnotationError") (or_introl eq_refl) eq_refl)
    as [out [Hout _]].
  vm_compute in Hout. discriminate Hout.
Qed.

Lemma apply_all_return (f : scalar -> Py.result scalar) (s out : Series) :
  Forall2 (fun lv lw => fst lv = fst lw /\ f (snd lv) = inr (snd lw)) s out ->
  apply f s = inr out.
Proof.
  induction 1 as [| [l v] [l' w] s out [Hl Hf] _ IH]; simpl in *.
  - reflexivity.
  - subst l'. rewrite Hf. simpl. rewrite IH. reflexivity.
Qed.

(** The first call that raises ends [apply] with its exception. *)
Lemma apply_first_raise (f : scalar -> Py.result scalar)
    (before after : Series) (label v : scalar) (e : Py.exn) :
  Forall (fun lv => exists w, f (snd lv) = inr w) before ->
  f v = inl e ->
  apply f (before ++ (label, v) :: after) = inl e.
Proof.
  intros Hbefore Hv.
  induction Hbefore as [| [l u] before [w Hw] _ IH]; simpl in *.
  - now rewrite Hv.
  - rewrite Hw. simpl. now rewrite IH.
Qed.

(** C7, amended.  When the annotator rejects the text of a document, and
    has accepted the texts before it, the batch filtering step raises the
    annotator's exception: no document gets a filtered text. *)
Theorem filter_texts_aborts_on_rejection
    (nlp : Language) (before after : Series) (label : scalar) (s : string)
    (e : Py.exn) :
  Forall (fun lv => exists t processed, snd lv = Str t /\ nlp t = inr processed)
    before ->
  nlp s = inl e ->
  filter_texts nlp (before ++ (label, Str s) :: after) = inl e.
Proof.
  intros Hbefore Hs. unfold filter_texts. apply apply_first_raise.
  - eapply Forall_impl; [| exact Hbefore].
    intros [l v] [t [processed [Hv Ht]]]. simpl in *. subst v.
    eexists. unfold on_text.
    rewrite (keep_only_content_words_unfold _ _ _ Ht). reflexivity.
  - unfold on_text, keep_only_content_words. now rewrite Hs.
Qed.

Lemma filter_texts_aborts_on_rejection_witness :
  filter_texts Samples.nlp_strict
    ([(Int 0, Str "perro")] ++ (Int 1, Str "") :: [(Int 2, Str "hola")])
  = inl (Py.OtherError "AnnotationError").
Proof.
  apply (filter_texts_aborts_on_rejection Samples.nlp_strict
           [(Int 0, Str "perro")] [(Int 2, Str "hola")] (Int 1) "").
  - constructor; [| constructor].
    exists "perro", [Samples.tok "perro" "perro" "NOUN"]. split; reflexivity.
  - reflexivity.
Defined.

(** When the annotator accepts every text, every document gets its filtered
    text, under its own label and in row order. *)
Lemma filter_texts_all_accepted (nlp : Language) (texts : list (scalar * string)) :
  (forall lt, In lt texts -> exists processed, nlp (snd lt) = inr processed) ->
  exists out,
    filter_texts nlp (map (fun lt => (fst lt, Str (snd lt))) texts) = inr out
    /\ map fst out = map fst texts
    /\ Forall2 (fun lt lw =>
                  exists r, keep_only_content_words nlp (snd lt) = inr r
                            /\ snd lw = Str r) texts out.
Proof.
  induction texts as [| [l t] texts IH]; intros Hall.
  - exists []. repeat split; constructor.
  - destruct (Hall (l, t) (or_introl eq_refl)) as [processed Hp].
    destruct IH as [out [Hout [Hlabels Hrows]]].
    { intros lt Hin. apply Hall. now right. }
    pose proof (keep_only_content_words_unfold _ _ _ Hp) as Hk. simpl in Hk.
    eexists ((l, Str _) :: out). unfold filter_texts in *. simpl.
    rewrite Hk. simpl. rewrite Hout. simpl. repeat split.
    + now rewrite Hlabels.
    + constructor; [| assumption]. eexists. split; [exact Hk | reflexivity].
Qed.

End FilterBatch.

(** ** The order on strings, sorting and [np.unique] *)

Section StringOrder.
Import Numpy.

Lemma compare_refl (a : string) : String.compare a a = Eq.
Proof. now apply String_as_OT.cmp_eq. Qed.

Lemma str_lt_compare (a b : string) : str_lt a b <-> String.compare a b = Lt.
Proof.
  unfold str_lt, String.ltb. destruct (String.compare a b); split; congruence.
Qed.

Lemma str_le_compare (a b : string) : str_le a b <-> String.compare a b <> Gt.
Proof.
  unfold str_le, String.leb. destruct (String.compare a b); split; congruence.
Qed.

Lemma str_lt_irrefl (a : string) : ~ str_lt a a.
Proof. rewrite str_lt_compare, compare_refl. discriminate. Qed.

Lemma str_lt_trans (a b c : string) : str_lt a b -> str_lt b c -> str_lt a c.
Proof.
  rewrite !str_lt_compare. intros Hab Hbc.
  apply String_as_OT.cmp_lt. apply String_as_OT.cmp_lt in Hab, Hbc.
  eapply String_as_OT.lt_trans; eassumption.
Qed.

Lemma str_lt_le (a b : string) : str_lt a b -> str_le a b.
Proof. rewrite str_lt_compare, str_le_compare. congruence. Qed.

Lemma str_le_cases (a b : string) : str_le a b <-> str_lt a b \/ a = b.
Proof.
  rewrite str_le_compare, str_lt_compare. split.
  - destruct (String.compare a b) eqn:H; intros Hne.
    + right. now apply String_as_OT.cmp_eq.
    + now left.
    + congruence.
  - intros [H | ->]; [congruence | rewrite compare_refl; discriminate].
Qed.

Lemma str_not_le_lt (a b : string) : String.leb a b = false -> str_lt b a.
Proof.
  unfold String.leb. rewrite str_lt_compare, String.compare_antisym.
  destruct (String.compare b a); simpl; congruence.
Qed.

Lemma str_lt_asym (a b : string) : str_lt a b -> ~ str_lt b a.
Proof. intros H1 H2. exact (str_lt_irrefl a (str_lt_trans _ _ _ H1 H2)). Qed.

Lemma str_le_trans (a b c : string) : str_le a b -> str_le b c -> str_le a c.
Proof.
  rewrite !str_le_cases. intros [H1 | ->] [H2 | ->]; auto.
  left. eapply str_lt_trans; eassumption.
Qed.

Lemma str_lt_total (a b : string) : str_lt a b \/ a = b \/ str_lt b a.
Proof.
  destruct (String.leb a b) eqn:H.
  - apply str_le_cases in H. tauto.
  - right. right. now apply str_not_le_lt.
Qed.

Lemma insert_sorted_In (x y : string) (l : list string) :
  In y (insert_sorted x l) <-> y = x \/ In y l.
Proof.
  induction l as [| z l IH]; simpl.
  - intuition.
  - destruct (String.leb x z); simpl; [intuition |].
    rewrite IH. intuition.
Qed.

Lemma insert_sorted_sorted (x : string) (l : list string) :
  StronglySorted str_le l -> StronglySorted str_le (insert_sorted x l).
Proof.
  induction 1 as [| z l Hsorted IH Hz]; simpl.
  - repeat constructor.
  - destruct (String.leb x z) eqn:Hxz.
    + constructor; [now constructor |]. constructor; [exact Hxz |].
      eapply Forall_impl; [| exact Hz]. intros w Hw.
      eapply str_le_trans; [exact Hxz | exact Hw].
    + constructor; [exact IH |]. apply Forall_forall. intros w Hw.
      apply insert_sorted_In in Hw. destruct Hw as [-> | Hw].
      * apply str_lt_le. now apply str_not_le_lt.
      * rewrite Forall_forall in Hz. now apply Hz.
Qed.

Lemma sort_In (a : list string) (x : string) : In x (sort a) <-> In x a.
Proof.
  unfold sort. induction a as [| y a IH]; simpl; [tauto |].
  rewrite insert_sorted_In, IH. intuition.
Qed.

Lemma sort_sorted (a : list string) : StronglySorted str_le (sort a).
Proof.
  unfold sort. induction a as [| y a IH]; simpl.
  - constructor.
  - now apply insert_sorted_sorted.
Qed.

Lemma sort_length (a : list string) : length (sort a) = length a.
Proof.
  assert (H : forall x l, length (insert_sorted x l) = S (length l)).
  { intros x l. induction l as [| z l IH]; simpl; [reflexivity |].
    destruct (String.leb x z); simpl; [reflexivity | now rewrite IH]. }
  unfold sort. induction a as [| y a IH]; simpl; [reflexivity |].
  now rewrite H, IH.
Qed.

Lemma drop_repeats_In (a : list string) (x : string) :
  In x (drop_repeats a) <-> In x a.
Proof.
  induction a as [| y a IH]; [simpl; tauto |].
  destruct a as [| z a'].
  - simpl. tauto.
  - change (drop_repeats (y :: z :: a'))
      with (if String.eqb y z then drop_repeats (z :: a')
            else y :: drop_repeats (z :: a')).
    destruct (String.eqb y z) eqn:Hyz.
    + apply String.eqb_eq in Hyz. subst z. rewrite IH. simpl. tauto.
    + simpl In at 1. rewrite IH. simpl. tauto.
Qed.

Lemma drop_repeats_sorted (a : list string) :
  StronglySorted str_le a -> StronglySorted str_lt (drop_repeats a).
Proof.
  induction 1 as [| y a Hsorted IH Hy]; [constructor |].
  destruct a as [| z a'].
  - simpl. repeat constructor.
  - change (drop_repeats (y :: z :: a'))
      with (if String.eqb y z then drop_repeats (z :: a')
            else y :: drop_repeats (z :: a')).
    destruct (String.eqb y z) eqn:Hyz; [exact IH |].
    constructor; [exact IH |].
    apply String.eqb_neq in Hyz.
    assert (Hlt : str_lt y z).
    { inversion Hy as [| ? ? Hle _]; subst.
      apply str_le_cases in Hle. destruct Hle; [assumption | contradiction]. }
    apply Forall_forall. intros w Hw. apply (proj1 (drop_repeats_In _ _)) in Hw.
    destruct Hw as [<- | Hw]; [exact Hlt |].
    inversion Hsorted as [| ? ? _ Hz]; subst.
    rewrite Forall_forall in Hz. specialize (Hz w Hw).
    apply str_le_cases in Hz. destruct Hz as [Hz | <-]; [| exact Hlt].
    eapply str_lt_trans; eassumption.
Qed.

Lemma unique_In (a : list string) (x : string) : In x (unique a) <-> In x a.
Proof. unfold unique. now rewrite drop_repeats_In, sort_In. Qed.

Lemma unique_sorted (a : list string) : StronglySorted str_lt (unique a).
Proof. unfold unique. apply drop_repeats_sorted, sort_sorted. Qed.

(** In a strictly sorted array the entry at a position is found at that
    position. *)
Lemma searchsorted_nth (a : list string) (i : nat) (x : string) :
  StronglySorted str_lt a -> nth_error a i = Some x -> searchsorted a x = i.
Proof.
  intros Hsorted. revert i.
  induction Hsorted as [| y a Hsorted IH Hy]; intros i Hnth.
  - destruct i; discriminate.
  - destruct i as [| i]; simpl in *.
    + injection Hnth as ->.
      destruct (String.ltb x x) eqn:Hxx; [| reflexivity].
      exfalso. exact (str_lt_irrefl x Hxx).
    + rewrite Forall_forall in Hy.
      rewrite (Hy x (nth_error_In _ _ Hnth)). f_equal. now apply IH.
Qed.

Lemma sorted_nth_lt (a : list string) (i j : nat) (x y : string) :
  StronglySorted str_lt a -> i < j ->
  nth_error a i = Some x -> nth_error a j = Some y -> str_lt x y.
Proof.
  intros Hsorted. revert i j.
  induction Hsorted as [| z a Hsorted IH Hz]; intros i j Hij Hi Hj.
  - destruct i; discriminate.
  - destruct j as [| j]; [lia |]. simpl in Hj. destruct i as [| i]; simpl in Hi.
    + injection Hi as ->. rewrite Forall_forall in Hz.
      apply Hz. eapply nth_error_In; eassumption.
    + apply (IH i j); [lia | assumption | assumption].
Qed.

End StringOrder.

(** ** The label encoder *)

Section LabelEncoder.
Import Numpy Sklearn.

Lemma fit_In (y : list string) (c : string) : In c (fit y) <-> In c y.
Proof. apply unique_In. Qed.

Lemma fit_sorted (y : list string) : StronglySorted str_lt (fit y).
Proof. apply unique_sorted. Qed.

(** A class sits in [classes_] at the position it is encoded to. *)
Lemma class_position (y : list string) (c : string) :
  In c (fit y) ->
  nth_error (fit y) (searchsorted (fit y) c) = Some c
  /\ searchsorted (fit y) c < length (fit y).
Proof.
  intros Hin. destruct (In_nth_error _ _ Hin) as [i Hi].
  rewrite (searchsorted_nth _ _ _ (fit_sorted y) Hi). split; [exact Hi |].
  apply nth_error_Some. congruence.
Qed.

Lemma encode_return (classes_ : list string) (c : string) (i : nat) :
  encode classes_ c = inr i <-> In c classes_ /\ searchsorted classes_ c = i.
Proof.
  unfold encode. destruct (Py.contains classes_ c) eqn:H.
  - apply contains_true_iff in H. split.
    + intros [= <-]. now split.
    + intros [_ <-]. reflexivity.
  - split; [discriminate |]. intros [Hin _].
    apply contains_true_iff in Hin. congruence.
Qed.

Lemma encode_observed (y : list string) (c : string) :
  In c y ->
  exists i, encode (fit y) c = inr i
            /\ i < length (fit y)
            /\ decode (fit y) i = inr c.
Proof.
  intros Hin. apply fit_In in Hin.
  destruct (class_position y c Hin) as [Hnth Hlt].
  exists (searchsorted (fit y) c). split; [| split].
  - now apply encode_return.
  - exact Hlt.
  - unfold decode. now rewrite Hnth.
Qed.

Lemma decode_in_range (y : list string) (i : nat) :
  i < length (fit y) ->
  exists c, In c y /\ decode (fit y) i = inr c /\ encode (fit y) c = inr i.
Proof.
  intros Hlt. destruct (nth_error (fit y) i) as [c |] eqn:Hnth.
  - exists c. assert (Hin : In c (fit y)) by (eapply nth_error_In; eassumption).
    split; [now apply fit_In | split].
    + unfold decode. now rewrite Hnth.
    + apply encode_return. split; [exact Hin |].
      now apply (searchsorted_nth _ _ _ (fit_sorted y)).
  - apply nth_error_None in Hnth. lia.
Qed.

Lemma encode_monotone (y : list string) (c1 c2 : string) (i1 i2 : nat) :
  encode (fit y) c1 = inr i1 -> encode (fit y) c2 = inr i2 ->
  (str_lt c1 c2 <-> i1 < i2).
Proof.
  intros H1 H2. apply encode_return in H1, H2.
  destruct H1 as [Hin1 <-], H2 as [Hin2 <-].
  destruct (class_position y c1 Hin1) as [Hn1 _].
  destruct (class_position y c2 Hin2) as [Hn2 _].
  pose proof (fit_sorted y) as Hs. split.
  - intros Hlt.
    destruct (Nat.lt_trichotomy (searchsorted (fit y) c1) (searchsorted (fit y) c2))
      as [H | [H | H]]; [exact H | |].
    + rewrite H in Hn1. rewrite Hn1 in Hn2. injection Hn2 as ->.
      exfalso. exact (str_lt_irrefl _ Hlt).
    + exfalso. apply (str_lt_asym _ _ Hlt).
      exact (sorted_nth_lt _ _ _ _ _ Hs H Hn2 Hn1).
  - intros H. exact (sorted_nth_lt _ _ _ _ _ Hs H Hn1 Hn2).
Qed.

Lemma fit_transform_ids (y : list string) :
  fst (fit_transform y) = fit y
  /\ Forall2 (fun c i => encode (fit y) c = inr i) y (snd (fit_transform y)).
Proof.
  split; [reflexivity |]. unfold fit_transform. simpl.
  assert (H : forall l, incl l y ->
              Forall2 (fun c i => encode (fit y) c = inr i) l
                (map (searchsorted (fit y)) l)).
  { induction l as [| c l IH]; intros Hincl; simpl; constructor.
    - apply encode_return. split; [| reflexivity].
      apply (proj2 (fit_In y c)), Hincl. now left.
    - apply IH. intros x Hx. apply Hincl. now right. }
  apply H, incl_refl.
Qed.

(** C4.  The fitted classes are the distinct category strings in strictly
    ascending lexicographic order; every observed category is encoded to an
    id below their number [k] and decoding that id returns the category;
    every id below [k] is the id of an observed category; and the encoding
    preserves the order, so it is one-to-one.  The ids [fit_transform]
    returns are these encodings, row by row. *)
Theorem label_encoder_bijection_roundtrip (y : list string) :
  let classes_ := fit y in
  let k := length classes_ in
  (forall c, In c classes_ <-> In c y)
  /\ StronglySorted str_lt classes_
  /\ (forall c, In c y ->
        exists i, encode classes_ c = inr i /\ i < k /\ decode classes_ i = inr c)
  /\ (forall i, i < k ->
        exists c, In c y /\ decode classes_ i = inr c /\ encode classes_ c = inr i)
  /\ (forall c1 c2 i1 i2,
        encode classes_ c1 = inr i1 -> encode classes_ c2 = inr i2 ->
        (str_lt c1 c2 <-> i1 < i2) /\ (i1 = i2 -> c1 = c2))
  /\ fst (fit_transform y) = classes_
  /\ Forall2 (fun c i => encode classes_ c = inr i) y (snd (fit_transform y)).
Proof.
  cbv zeta. split; [apply fit_In |]. split; [apply fit_sorted |].
  split; [apply encode_observed |]. split; [apply decode_in_range |].
  split; [| apply fit_transform_ids].
  intros c1 c2 i1 i2 H1 H2. split; [exact (encode_monotone y c1 c2 i1 i2 H1 H2) |].
  intros ->. destruct (str_lt_total c1 c2) as [H | [H | H]]; [| exact H |].
  - apply (encode_monotone y c1 c2 i2 i2 H1 H2) in H. lia.
  - apply (encode_monotone y c2 c1 i2 i2 H2 H1) in H. lia.
Qed.

Lemma label_encoder_bijection_roundtrip_witness :
  fit_transform ["otros"; "animales"; "otros"; "familia"]
  = (["animales"; "familia"; "otros"], [2; 0; 2; 1])
  /\ (forall c, In c ["otros"; "animales"; "otros"; "familia"] ->
        exists i, encode (fit ["otros"; "animales"; "otros"; "familia"]) c = inr i
                  /\ i < 3
                  /\ decode (fit ["otros"; "animales"; "otros"; "familia"]) i = inr c).
Proof.
  split; [reflexivity |].
  exact (proj1 (proj2 (proj2
           (label_encoder_bijection_roundtrip
              ["otros"; "animales"; "otros"; "familia"])))).
Defined.

End LabelEncoder.

(** ** The colour of each point *)

Section Colours.
Import Pandas Numpy Sklearn Notebook.






Lemma encode_categories_unfold (category : list (scalar * string)) :
  encode_categories category
  = (fit (map snd category),
     id_column (map fst category)
       (map (searchsorted (fit (map snd category))) (map snd category))).
Proof. reflexivity. Qed.



End Colours.

(** ** Top words per topic *)

Section TopWordsFacts.
Import Numpy Notebook.

Context {W : Type}.
Variable leb : W -> W -> bool.

Lemma insert_by_Permutation (p : nat * W) (l : list (nat * W)) :
  Permutation (insert_by leb p l) (p :: l).
Proof.
  induction l as [| q l IH]; simpl.
  - apply Permutation_refl.
  - destruct (leb (snd p) (snd q)).
    + apply Permutation_refl.
    + eapply Permutation_trans; [apply perm_skip, IH | apply perm_swap].
Qed.

Lemma insertion_Permutation (l : list (nat * W)) :
  Permutation (fold_right (insert_by leb) [] l) l.
Proof.
  induction l as [| p l IH]; simpl.
  - apply Permutation_refl.
  - eapply Permutation_trans; [apply insert_by_Permutation | now apply perm_skip].
Qed.

Lemma map_fst_combine_seq (a : list W) (start : nat) :
  map fst (combine (seq start (length a)) a) = seq start (length a).
Proof.
  revert start. induction a as [| x a IH]; intros start; simpl.
  - reflexivity.
  - now rewrite IH.
Qed.

(** [argsort] returns every position of the array exactly once. *)
Lemma argsort_Permutation (a : list W) :
  Permutation (argsort leb a) (seq 0 (length a)).
Proof.
  unfold argsort. rewrite <- (map_fst_combine_seq a 0) at 2.
  apply Permutation_map, insertion_Permutation.
Qed.

Lemma argsort_length (a : list W) : length (argsort leb a) = length a.
Proof.
  rewrite (Permutation_length (argsort_Permutation a)). apply length_seq.
Qed.

Lemma argsort_in_range (a : list W) (p : nat) :
  In p (argsort leb a) -> p < length a.
Proof.
  intros H. apply (Permutation_in _ (argsort_Permutation a)) in H.
  apply in_seq in H. lia.
Qed.

End TopWordsFacts.

Section SliceFacts.

(** [xs[:-n-1:-1]] visits [min n (len xs)] positions, all of them inside the
    list. *)
Lemma backwards_positions_last (len n : nat) :
  length (Py.backwards_positions (Z.of_nat len) (- Z.of_nat n - 1)) = Nat.min n len
  /\ Forall (fun p => p < len)
       (Py.backwards_positions (Z.of_nat len) (- Z.of_nat n - 1)).
Proof.
  unfold Py.backwards_positions, Py.adjust_stop_backwards.
  assert (Hneg : (- Z.of_nat n - 1 <? 0)%Z = true) by (apply Z.ltb_lt; lia).
  rewrite Hneg.
  destruct (- Z.of_nat n - 1 + Z.of_nat len <? 0)%Z eqn:Hclamp.
  - apply Z.ltb_lt in Hclamp. split.
    + rewrite length_map, length_seq. lia.
    + apply Forall_forall. intros p Hp. apply in_map_iff in Hp.
      destruct Hp as [k [<- Hk]]. apply in_seq in Hk. lia.
  - apply Z.ltb_ge in Hclamp. split.
    + rewrite length_map, length_seq. lia.
    + apply Forall_forall. intros p Hp. apply in_map_iff in Hp.
      destruct Hp as [k [<- Hk]]. apply in_seq in Hk. lia.
Qed.

Lemma pick_positions {A : Type} (xs : list A) (positions : list nat) :
  Forall (fun p => p < length xs) positions ->
  length (flat_map
            (fun p => match nth_error xs p with Some x => [x] | None => [] end)
            positions) = length positions
  /\ incl (flat_map
             (fun p => match nth_error xs p with Some x => [x] | None => [] end)
             positions) xs.
Proof.
  induction 1 as [| p ps Hp _ [IHlen IHincl]]; simpl.
  - split; [reflexivity | intros x []].
  - destruct (nth_error xs p) as [x |] eqn:Hnth.
    + simpl. split; [now rewrite IHlen |].
      intros y [<- | Hy]; [eapply nth_error_In; eassumption | now apply IHincl].
    + apply nth_error_None in Hnth. lia.
Qed.

Lemma slice_backwards_last {A : Type} (xs : list A) (n : nat) :
  length (Py.slice_backwards xs (- Z.of_nat n - 1)) = Nat.min n (length xs)
  /\ incl (Py.slice_backwards xs (- Z.of_nat n - 1)) xs.
Proof.
  unfold Py.slice_backwards.
  destruct (backwards_positions_last (length xs) n) as [Hlen Hrange].
  destruct (pick_positions xs _ Hrange) as [Hlen' Hincl].
  split; [now rewrite Hlen', Hlen | exact Hincl].
Qed.

End SliceFacts.

Section PrintTopWords.
Import Numpy Notebook.

Context {W : Type}.
Variable leb : W -> W -> bool.

Lemma top_terms_shape (feature_names : list string) (n : nat) (topic : list W) :
  length topic = length feature_names ->
  exists terms,
    top_terms leb feature_names n topic = inr terms
    /\ length terms = Nat.min n (length feature_names)
    /\ incl terms feature_names.
Proof.
  intros Hshape. unfold top_terms.
  destruct (slice_backwards_last (argsort leb topic) n) as [Hlen Hincl].
  destruct (mapM_getitem_in_range feature_names
              (Py.slice_backwards (argsort leb topic) (- Z.of_nat n - 1)))
    as [terms [Hterms [Hlen' Hincl']]].
  - apply Forall_forall. intros p Hp. apply Hincl in Hp.
    apply argsort_in_range in Hp. lia.
  - exists terms. split; [exact Hterms |]. split; [| exact Hincl'].
    rewrite Hlen', Hlen, argsort_length. now rewrite Hshape.
Qed.

Lemma topic_messages (feature_names : list string) (n : nat)
    (components_ : list (list W)) (term_lists : list (list string)) (start : nat) :
  Forall2 (fun topic terms => top_terms leb feature_names n topic = inr terms)
    components_ term_lists ->
  Py.mapM (topic_message leb feature_names n)
    (combine (seq start (length components_)) components_)
  = inr (map (fun it => (("Topic #" ++ Py.format_d (fst it) ++ ": ")
                         ++ Py.join " " (snd it))%string)
           (combine (seq start (length term_lists)) term_lists)).
Proof.
  intros H. revert start.
  induction H as [| topic terms cs ts Hterms _ IH]; intros start; simpl.
  - reflexivity.
  - unfold topic_message at 1. simpl. rewrite Hterms. simpl.
    rewrite IH. reflexivity.
Qed.

(** C9.  For the components of a topic model fitted with 10 topics on a
    matrix over a fitted (hence non-empty) vocabulary, listing the top 8
    terms per topic succeeds and prints one line per topic: exactly 10 term
    lists, none of them empty, each made of [min 8 (vocabulary size)] terms
    of the vocabulary. *)
Theorem print_top_words_ten_term_lists
    (components_ : list (list W)) (feature_names : list string) :
  length components_ = number_of_topics ->
  Forall (fun topic => length topic = length feature_names) components_ ->
  feature_names <> [] ->
  exists term_lists,
    length term_lists = 10
    /\ Forall2 (fun topic terms => top_terms leb feature_names 8 topic = inr terms)
         components_ term_lists
    /\ print_top_words leb components_ feature_names 8
       = inr (map (fun it => (("Topic #" ++ Py.format_d (fst it) ++ ": ")
                              ++ Py.join " " (snd it))%string)
                (combine (seq 0 10) term_lists))
    /\ Forall (fun terms => terms <> []
                            /\ length terms = Nat.min 8 (length feature_names)
                            /\ incl terms feature_names) term_lists.
Proof.
  intros Hten Hshape Hvocab.
  assert (Hlists : exists term_lists,
             Forall2 (fun topic terms => top_terms leb feature_names 8 topic = inr terms)
               components_ term_lists
             /\ Forall (fun terms => terms <> []
                                     /\ length terms = Nat.min 8 (length feature_names)
                                     /\ incl terms feature_names) term_lists).
  { clear Hten. induction Hshape as [| topic cs Htopic _ [ts [Hts Hall]]].
    - exists []. split; constructor.
    - destruct (top_terms_shape feature_names 8 topic Htopic)
        as [terms [Hterms [Hlen Hincl]]].
      exists (terms :: ts). split; constructor; auto.
      split; [| now split]. intros ->. simpl in Hlen.
      destruct feature_names; [contradiction | simpl in Hlen; lia]. }
  destruct Hlists as [term_lists [Hts Hall]].
  assert (Hlen : length term_lists = 10).
  { rewrite <- (Forall2_length Hts). exact Hten. }
  exists term_lists. split; [exact Hlen |]. split; [exact Hts |]. split; [| exact Hall].
  unfold print_top_words. rewrite (topic_messages _ _ _ _ 0 Hts). now rewrite Hlen.
Qed.

End PrintTopWords.

Lemma print_top_words_ten_term_lists_witness :
  exists term_lists,
    length term_lists = 10
    /\ Forall2 (fun topic terms =>
                  Notebook.top_terms Z.leb Samples.nine_terms 8 topic = inr terms)
         Samples.ten_topics term_lists
    /\ Notebook.print_top_words Z.leb Samples.ten_topics Samples.nine_terms 8
       = inr (map (fun it => (("Topic #" ++ Py.format_d (fst it) ++ ": ")
                              ++ Py.join " " (snd it))%string)
                (combine (seq 0 10) term_lists))
    /\ Forall (fun terms => terms <> []
                            /\ length terms = Nat.min 8 (length Samples.nine_terms)
                            /\ incl terms Samples.nine_terms) term_lists.
Proof.
  apply (print_top_words_ten_term_lists Z.leb Samples.ten_topics Samples.nine_terms).
  - reflexivity.
  - repeat constructor.
  - discriminate.
Defined.

(** ** The resolved vocabulary *)

Section VocabularyFacts.
Import Numpy Sklearn Notebook.

Variable analyzer : string -> list string.

(** Picking the entries at the positions of a list picks no more entries
    than the list has positions. *)
Lemma pick_at_most (mask_inds : list nat) (masked : list string) :
  length (filter (fun jt : nat * string => existsb (Nat.eqb (fst jt)) mask_inds)
            (combine (seq 0 (length masked)) masked))
  <= length mask_inds.
Proof.
  set (kept := filter _ _).
  assert (Hlen : length kept = length (map fst kept)) by now rewrite length_map.
  rewrite Hlen. apply NoDup_incl_length.
  - assert (Hnd : NoDup (map fst (combine (seq 0 (length masked)) masked))).
    { rewrite map_fst_combine_seq. apply seq_NoDup. }
    unfold kept. clear kept Hlen.
    induction (combine (seq 0 (length masked)) masked) as [| jt l IH]; simpl.
    + constructor.
    + simpl in Hnd. inversion Hnd as [| ? ? Hnotin Hnd']; subst.
      destruct (existsb (Nat.eqb (fst jt)) mask_inds); [| now apply IH].
      simpl. constructor; [| now apply IH].
      intros Hin. apply Hnotin. apply in_map_iff in Hin.
      destruct Hin as [q [Hq Hqin]]. apply filter_In in Hqin.
      apply in_map_iff. exists q. tauto.
  - intros j Hj. apply in_map_iff in Hj. destruct Hj as [jt [<- Hjt]].
    apply filter_In in Hjt. destruct Hjt as [_ Hex].
    apply existsb_exists in Hex. destruct Hex as [j' [Hin Heq]].
    apply Nat.eqb_eq in Heq. now rewrite Heq.
Qed.

Lemma limit_features_incl (docs vocabulary : list string) (high low limit : nat) :
  incl (limit_features analyzer docs vocabulary high low limit)
    (filter (fun t =>
               Nat.leb (document_frequency analyzer docs t) high
               && Nat.leb low (document_frequency analyzer docs t)) vocabulary).
Proof.
  unfold limit_features.
  set (masked := filter _ vocabulary).
  destruct (Nat.ltb limit (length masked)); [| apply incl_refl].
  intros t Ht. apply in_map_iff in Ht. destruct Ht as [jt [<- Hjt]].
  apply filter_In in Hjt. destruct Hjt as [Hjt _].
  destruct jt as [j t]. eapply in_combine_r. exact Hjt.
Qed.

Lemma limit_features_length (docs vocabulary : list string) (high low limit : nat) :
  length (limit_features analyzer docs vocabulary high low limit) <= limit.
Proof.
  unfold limit_features.
  set (masked := filter _ vocabulary).
  destruct (Nat.ltb limit (length masked)) eqn:Hover.
  - rewrite length_map.
    eapply Nat.le_trans; [apply pick_at_most |].
    rewrite length_firstn. apply Nat.le_min_l.
  - apply Nat.ltb_ge in Hover. exact Hover.
Qed.

(** The two knobs bound every vocabulary a fit resolves. *)
Lemma fit_vocabulary_within (max_df max_features : nat)
    (docs vocabulary : list string) :
  fit_vocabulary analyzer max_df max_features docs = inr vocabulary ->
  length vocabulary <= max_features
  /\ (forall t, In t vocabulary ->
        document_frequency analyzer docs t <= max_df)
  /\ vocabulary <> [].
Proof.
  unfold fit_vocabulary.
  destruct (count_vocab analyzer docs) as [| t0 ts0] eqn:Hvocab; [discriminate |].
  destruct (Nat.ltb max_df 1); [discriminate |].
  destruct (limit_features analyzer docs (sort (t0 :: ts0)) max_df 1 max_features)
    as [| t ts] eqn:Hlimit; [discriminate |].
  intros [= <-]. split; [| split].
  - rewrite <- Hlimit. apply limit_features_length.
  - intros u Hu. rewrite <- Hlimit in Hu.
    apply limit_features_incl in Hu. apply filter_In in Hu.
    destruct Hu as [_ Hrange]. apply andb_prop in Hrange.
    now apply Nat.leb_le.
  - discriminate.
Qed.

(** C5.  A vocabulary resolved by a fit of the exploratory vectorizer holds
    at most 20 terms, one resolved by the tf-idf vectorizer at most 500, and
    neither holds a term that occurs in more than 200 documents. *)
Theorem vocabulary_within_cap_and_ceiling (texts vocabulary : list string) :
  (vectorizer20 analyzer texts = inr vocabulary ->
     length vocabulary <= 20
     /\ forall t, In t vocabulary ->
          document_frequency analyzer texts t <= 200)
  /\ (tfidf_vectorizer analyzer texts = inr vocabulary ->
     length vocabulary <= 500
     /\ forall t, In t vocabulary ->
          document_frequency analyzer texts t <= 200).
Proof.
  split; intros H; apply fit_vocabulary_within in H;
    destruct H as [Hcap [Hceiling _]]; split; assumption.
Qed.

End VocabularyFacts.

Lemma vocabulary_within_cap_and_ceiling_witness :
  Notebook.vectorizer20 Samples.words_of Samples.small_corpus
  = inr ["comer"; "doctor"; "ladrar"; "perro"; "ver"]
  /\ length ["comer"; "doctor"; "ladrar"; "perro"; "ver"] <= 20
  /\ forall t, In t ["comer"; "doctor"; "ladrar"; "perro"; "ver"] ->
       Sklearn.document_frequency Samples.words_of Samples.small_corpus t <= 200.
Proof.
  split; [reflexivity |].
  apply (proj1 (vocabulary_within_cap_and_ceiling Samples.words_of
                  Samples.small_corpus
                  ["comer"; "doctor"; "ladrar"; "perro"; "ver"])).
  reflexivity.
Defined.

(** ** Splitting, training, evaluating *)

Section SplitFacts.
Import Sklearn.

Variable rng : Type.
Variable RandomState : Z -> rng.
Variable permutation : rng -> nat -> list nat.

(** With an integer seed the split never reads the process-wide
    generator. *)
Lemma shuffle_split_seeded (g1 g2 : rng) (seed : Z) (n : nat) :
  shuffle_split rng RandomState permutation g1 (Some seed) n
  = shuffle_split rng RandomState permutation g2 (Some seed) n.
Proof. reflexivity. Qed.

Lemma take_rows {A : Type} (a : list A) (indices : list nat) (rows : list A) :
  take a indices = inr rows ->
  Forall2 (fun i x => nth_error a i = Some x) indices rows.
Proof.
  intros H. apply mapM_return_inv in H.
  eapply Forall2_impl; [| exact H].
  intros i x. unfold Py.list_getitem, Py.ret, Py.raise.
  destruct (nth_error a i); [now intros [= ->] | intros Hi; discriminate Hi].
Qed.

(** The split keeps rows and labels together: the k-th training row and the
    k-th training label come from one position of the inputs, and so do
    the test ones. *)
Lemma train_test_split_aligned {A B : Type} (g : rng) (X : list A) (y : list B)
    (seed : option Z) (X_train X_test : list A) (y_train y_test : list B) :
  train_test_split rng RandomState permutation g X y seed
  = inr (X_train, X_test, y_train, y_test) ->
  length X = length y
  /\ exists ind_train ind_test,
       shuffle_split rng RandomState permutation g seed (length X)
       = (ind_train, ind_test)
       /\ Forall2 (fun i x => nth_error X i = Some x) ind_train X_train
       /\ Forall2 (fun i l => nth_error y i = Some l) ind_train y_train
       /\ Forall2 (fun i x => nth_error X i = Some x) ind_test X_test
       /\ Forall2 (fun i l => nth_error y i = Some l) ind_test y_test.
Proof.
  unfold train_test_split.
  destruct (Nat.eqb (length X) (length y)) eqn:Hlen; cbn [negb]; [| discriminate].
  destruct (Nat.eqb (n_train (length X)) 0); [discriminate |].
  destruct (shuffle_split rng RandomState permutation g seed (length X))
    as [ind_train ind_test].
  destruct (take X ind_train) as [e | Xtr] eqn:H1; cbn [Py.bind]; [discriminate |].
  destruct (take X ind_test) as [e | Xte] eqn:H2; cbn [Py.bind]; [discriminate |].
  destruct (take y ind_train) as [e | ytr] eqn:H3; cbn [Py.bind]; [discriminate |].
  destruct (take y ind_test) as [e | yte] eqn:H4; cbn [Py.bind]; [discriminate |].
  unfold Py.ret. intros [= <- <- <- <-]. split; [now apply Nat.eqb_eq |].
  exists ind_train, ind_test. split; [reflexivity |].
  repeat split; now apply take_rows.
Qed.

End SplitFacts.

Section Determinism.
Import Sklearn Notebook.

Variable analyzer : string -> list string.
Variable rng : Type.
Variable RandomState : Z -> rng.
Variable permutation : rng -> nat -> list nat.
Variable row : Type.
Variable tfidf_row : list string -> list string -> string -> row.
Variable forest : Type.
Variable forest_fit : rng -> nat -> list row -> list nat -> forest.
Variable forest_predict : forest -> row -> nat.

(** C6.  Two runs of the split-train-evaluate cells on the same corpus,
    started with the process-wide generator in any two states, leave the
    same outcome: the same vocabulary, the same train and test partitions
    and the same train and test scores.  The vocabulary a run reports is
    the one resolved from the corpus and the two knobs (200 documents, 500
    features) alone, and its partitions are the ones drawn with seed 1. *)
Theorem split_train_evaluate_deterministic
    (g1 g2 : rng) (filtered_text category : list string) :
  split_train_evaluate analyzer rng RandomState permutation row tfidf_row
    forest forest_fit forest_predict g1 filtered_text category
  = split_train_evaluate analyzer rng RandomState permutation row tfidf_row
      forest forest_fit forest_predict g2 filtered_text category
  /\ (forall r,
        split_train_evaluate analyzer rng RandomState permutation row tfidf_row
          forest forest_fit forest_predict g1 filtered_text category = inr r ->
        fit_vocabulary analyzer 200 500 filtered_text = inr (important_words row r)
        /\ train_test_split rng RandomState permutation g2
             (map (tfidf_row (important_words row r) filtered_text) filtered_text)
             (snd (fit_transform category)) (Some 1%Z)
           = inr (X_train row r, X_test row r, y_train row r, y_test row r)).
Proof.
  split; [reflexivity |].
  intros r. unfold split_train_evaluate, tfidf_vectorizer, max_jokes_with_that_word.
  destruct (fit_vocabulary analyzer 200 500 filtered_text) as [e | words];
    simpl; [discriminate |].
  match goal with
  | |- context [train_test_split _ _ _ g1 ?X ?y ?s] =>
      change (train_test_split rng RandomState permutation g1 X y s)
        with (train_test_split rng RandomState permutation g2 X y s);
      destruct (train_test_split rng RandomState permutation g2 X y s)
        as [e | [[[Xtr Xte] ytr] yte]] eqn:Hsplit
  end; cbn [Py.bind]; [discriminate |].
  unfold Py.ret. intros [= <-]. cbn [important_words X_train X_test y_train y_test].
  split; [reflexivity | exact Hsplit].
Qed.

End Determinism.

(** Without a seed the split does follow the process-wide generator: two
    states of it give two partitions. *)
Lemma shuffle_split_unseeded_varies :
  Sklearn.shuffle_split nat Z.to_nat Samples.rotate 0 None 4
  <> Sklearn.shuffle_split nat Z.to_nat Samples.rotate 1 None 4.
Proof. vm_compute. discriminate. Qed.

Lemma split_train_evaluate_deterministic_witness :
  Notebook.split_train_evaluate Samples.words_of nat Z.to_nat Samples.rotate
    string Samples.text_row (list (string * nat)) Samples.memorize Samples.recall
    0 Samples.small_corpus ["otros"; "animales"; "otros"]
  = Notebook.split_train_evaluate Samples.words_of nat Z.to_nat Samples.rotate
      string Samples.text_row (list (string * nat)) Samples.memorize Samples.recall
      7 Samples.small_corpus ["otros"; "animales"; "otros"]
  /\ exists r,
       Notebook.split_train_evaluate Samples.words_of nat Z.to_nat Samples.rotate
         string Samples.text_row (list (string * nat)) Samples.memorize
         Samples.recall 7 Samples.small_corpus ["otros"; "animales"; "otros"]
       = inr r
       /\ Notebook.X_test string r = ["perro comer"]
       /\ Notebook.y_test string r = [0].
Proof.
  split.
  - apply (proj1 (split_train_evaluate_deterministic Samples.words_of nat Z.to_nat
                    Samples.rotate string Samples.text_row (list (string * nat))
                    Samples.memorize Samples.recall 0 7 Samples.small_corpus
                    ["otros"; "animales"; "otros"])).
  - eexists. split; [reflexivity | split; reflexivity].
Defined.

(** ** Reading the dataset *)

Section Loader.
Import Pandas Notebook.

Lemma position_Some_In (name : string) (names : list string) (k : nat) :
  position name names = Some k -> In name names.
Proof.
  revert k. induction names as [| n names IH]; simpl; intros k; [discriminate |].
  destruct (String.eqb name n) eqn:Hn.
  - apply String.eqb_eq in Hn. intros _. now left.
  - destruct (position name names) as [k' |]; simpl; [| discriminate].
    intros _. right. now apply (IH k').
Qed.

Lemma position_None_not_In (name : string) (names : list string) :
  position name names = None -> ~ In name names.
Proof.
  induction names as [| n names IH]; simpl; [tauto |].
  destruct (String.eqb name n) eqn:Hn; [discriminate |].
  destruct (position name names) as [k' |]; simpl; [discriminate |].
  intros _ [Heq | Hin].
  - subst n. rewrite String.eqb_refl in Hn. discriminate.
  - now apply IH.
Qed.

Lemma position_distinct (a b : string) (names : list string) (k : nat) :
  a <> b -> position a names = Some k -> position b names = Some k -> False.
Proof.
  intros Hab. revert k.
  induction names as [| n names IH]; cbn [position]; intros k Ha Hb;
    [discriminate Ha |].
  destruct (String.eqb a n) eqn:H1; destruct (String.eqb b n) eqn:H2.
  - apply String.eqb_eq in H1, H2. congruence.
  - injection Ha as <-.
    destruct (position b names); simpl in Hb; discriminate Hb.
  - injection Hb as <-.
    destruct (position a names); simpl in Ha; discriminate Ha.
  - destruct (position a names) as [ka |]; simpl in Ha; [| discriminate Ha].
    destruct (position b names) as [kb |]; simpl in Hb; [| discriminate Hb].
    injection Ha as <-. injection Hb as Hkb. subst kb. now apply (IH ka).
Qed.

Variable infer : list string -> list scalar.
Variable na_values : list string.

(** The column read for a name of the header, other than the index
    column. *)
Lemma column_of_header (convert : nat * string -> list scalar)
    (name : string) (names : list string) (k j start : nat) :
  position name names = Some j ->
  start + j <> k ->
  column name
    (map (fun jn => (snd jn, convert jn))
       (filter (fun jn => negb (Nat.eqb (fst jn) k))
          (combine (seq start (length names)) names)))
  = Some (convert (start + j, name)).
Proof.
  revert j start. induction names as [| n names IH]; intros j start; simpl;
    [discriminate |].
  destruct (String.eqb name n) eqn:Hn.
  - apply String.eqb_eq in Hn. subst n. intros [= <-] Hk.
    rewrite Nat.add_0_r in *.
    destruct (Nat.eqb start k) eqn:Hsk; [apply Nat.eqb_eq in Hsk; contradiction |].
    simpl. now rewrite String.eqb_refl.
  - destruct (position name names) as [j' |] eqn:Hp; simpl; [| discriminate].
    intros [= <-] Hk.
    assert (Hrest : column name
                      (map (fun jn => (snd jn, convert jn))
                         (filter (fun jn => negb (Nat.eqb (fst jn) k))
                            (combine (seq (S start) (length names)) names)))
                    = Some (convert (start + S j', name))).
    { rewrite <- Nat.add_succ_comm. apply IH; [reflexivity | lia]. }
    destruct (Nat.eqb start k); simpl; [exact Hrest |].
    now rewrite Hn.
Qed.

(** A file without an over-long record passes the width check. *)
Lemma too_long_within (f : csv_file) :
  Forall (fun record => length record <= length (header f)) (records f) ->
  too_long f = false.
Proof.
  unfold too_long. generalize (length (header f)) as n.
  induction (records f) as [| record rest IH]; intros n Hall; simpl;
    [reflexivity |].
  inversion Hall as [| ? ? Hrecord Hrest]; subst.
  rewrite (IH n Hrest), Bool.orb_false_r.
  now apply Nat.ltb_ge.
Qed.

(** What [load] does with a file that splits into fields, has a header and
    no over-long record. *)
Lemma load_of_fields (fs : filesystem) (f : csv_file) :
  fs "chistes.csv" = Some (inr f) ->
  header f <> [] ->
  Forall (fun record => length record <= length (header f)) (records f) ->
  load infer na_values fs
  = match position "id" (header f) with
    | None => Py.raise (Py.ValueError "Index id invalid")
    | Some k =>
        Py.ret
          {| index := infer (fields_of k f);
             columns :=
               map (fun jn : nat * string =>
                      (snd jn,
                       if Py.contains ["text"] (snd jn)
                       then as_str na_values (fields_of (fst jn) f)
                       else infer (fields_of (fst jn) f)))
                 (filter (fun jn => negb (Nat.eqb (fst jn) k))
                    (combine (seq 0 (length (header f))) (header f))) |}
    end.
Proof.
  intros Hfile Hheader Hwidth. unfold load, read_csv.
  rewrite Hfile, (too_long_within f Hwidth).
  destruct (header f) as [| name names]; [contradiction | reflexivity].
Qed.

(** C8, amended.  Take a [chistes.csv] in which no record has more fields
    than the header.  The loader raises [FileNotFoundError] when the file is
    missing, the tokenizer's exception when the file does not split into
    fields, [EmptyDataError] when there is no header, and
    [ValueError: Index id invalid] when the header lacks [id]; it fails in
    these cases only, so no other column is required.  On a file with an
    [id] column it returns a table whose index is the [id] column, and a
    [text] column of the file is kept field by field as the string it is,
    whatever the column inference does, a missing-value marker of the pandas
    release in use becoming [NaN]. *)
Theorem load_fails_iff_no_file_or_no_id (fs : filesystem) :
  (forall f, fs "chistes.csv" = Some (inr f) ->
             Forall (fun record => length record <= length (header f))
               (records f)) ->
  (fs "chistes.csv" = None ->
   load infer na_values fs = inl Py.FileNotFoundError)
  /\ (forall e, fs "chistes.csv" = Some (inl e) ->
                load infer na_values fs = inl e)
  /\ (forall f, fs "chistes.csv" = Some (inr f) -> header f = [] ->
                load infer na_values fs = inl (Py.OtherError "EmptyDataError"))
  /\ (forall f, fs "chistes.csv" = Some (inr f) -> header f <> [] ->
                ~ In "id" (header f) ->
                load infer na_values fs = inl (Py.ValueError "Index id invalid"))
  /\ ((exists e, load infer na_values fs = inl e)
      <-> (fs "chistes.csv" = None
           \/ (exists e, fs "chistes.csv" = Some (inl e))
           \/ exists f, fs "chistes.csv" = Some (inr f) /\ ~ In "id" (header f)))
  /\ (forall f k,
        fs "chistes.csv" = Some (inr f) ->
        position "id" (header f) = Some k ->
        exists df,
          load infer na_values fs = inr df
          /\ index df = infer (fields_of k f)
          /\ (forall j, position "text" (header f) = Some j ->
                column "text" (columns df)
                = Some (map (fun field => if is_na na_values field
                                          then NaN else Str field)
                          (fields_of j f)))).
Proof.
  intros Hwidth.
  assert (Hmissing : fs "chistes.csv" = None ->
                     load infer na_values fs = inl Py.FileNotFoundError).
  { intros Hfile. unfold load, read_csv. now rewrite Hfile. }
  assert (Hbytes : forall e, fs "chistes.csv" = Some (inl e) ->
                             load infer na_values fs = inl e).
  { intros e Hfile. unfold load, read_csv. now rewrite Hfile. }
  assert (Hempty : forall f, fs "chistes.csv" = Some (inr f) -> header f = [] ->
                     load infer na_values fs = inl (Py.OtherError "EmptyDataError")).
  { intros f Hfile Hheader. unfold load, read_csv. now rewrite Hfile, Hheader. }
  assert (Hnoid : forall f, fs "chistes.csv" = Some (inr f) -> header f <> [] ->
                    ~ In "id" (header f) ->
                    load infer na_values fs = inl (Py.ValueError "Index id invalid")).
  { intros f Hfile Hheader Hno.
    rewrite (load_of_fields fs f Hfile Hheader (Hwidth f Hfile)).
    destruct (position "id" (header f)) as [k |] eqn:Hid; [| reflexivity].
    exfalso. apply Hno. eapply position_Some_In. exact Hid. }
  assert (Hid_loads : forall f k, fs "chistes.csv" = Some (inr f) ->
                        position "id" (header f) = Some k ->
                        load infer na_values fs
                        = inr {| index := infer (fields_of k f);
                                 columns :=
                                   map (fun jn : nat * string =>
                                          (snd jn,
                                           if Py.contains ["text"] (snd jn)
                                           then as_str na_values (fields_of (fst jn) f)
                                           else infer (fields_of (fst jn) f)))
                                     (filter (fun jn => negb (Nat.eqb (fst jn) k))
                                        (combine (seq 0 (length (header f)))
                                           (header f))) |}).
  { intros f k Hfile Hid.
    assert (Hheader : header f <> []).
    { intros Hnil. rewrite Hnil in Hid. discriminate Hid. }
    rewrite (load_of_fields fs f Hfile Hheader (Hwidth f Hfile)).
    now rewrite Hid. }
  split; [exact Hmissing |]. split; [exact Hbytes |].
  split; [exact Hempty |]. split; [exact Hnoid |]. split.
  - split.
    + intros [e He].
      destruct (fs "chistes.csv") as [[e' | f] |] eqn:Hfile.
      * right. left. now exists e'.
      * right. right. exists f. split; [reflexivity |].
        intros Hin.
        destruct (position "id" (header f)) as [k |] eqn:Hid.
        -- rewrite (Hid_loads f k eq_refl Hid) in He. discriminate He.
        -- exact (position_None_not_In _ _ Hid Hin).
      * now left.
    + intros [Hnone | [[e He] | [f [Hfile Hno]]]].
      * eexists. now apply Hmissing.
      * exists e. now apply Hbytes.
      * destruct (header f) as [| name names] eqn:Hheader.
        -- eexists. now apply (Hempty f).
        -- rewrite <- Hheader in Hno. eexists. apply (Hnoid f Hfile); [| exact Hno].
           rewrite Hheader. discriminate.
  - intros f k Hfile Hid. eexists. split; [exact (Hid_loads f k Hfile Hid) |].
    split; [reflexivity |].
    intros j Hj. cbn [columns].
    rewrite (column_of_header _ "text" (header f) k j 0 Hj).
    + reflexivity.
    + simpl. intros ->.
      exact (position_distinct "id" "text" _ _ ltac:(discriminate) Hid Hj).
Qed.

End Loader.

(** C8, as stated, fails: a file without the category column is read
    without an error. *)
Lemma load_accepts_wrong_column_set :
  ~ (forall (infer : list string -> list Pandas.scalar)
            (na_values : list string) (fs : Pandas.filesystem),
        (exists e, Notebook.load infer na_values fs = inl e)
        <-> (fs "chistes.csv" = None
             \/ exists f, fs "chistes.csv" = Some (inr f)
                          /\ ~ (forall c, In c (Pandas.header f)
                                          <-> In c ["id"; "text"; "category"]))).
Proof.
  intros H.
  destruct (proj2 (H Samples.infer_int Pandas.default_na_values
                     (Samples.only Samples.no_category_csv)))
    as [e He].
  - right. exists Samples.no_category_csv. split; [reflexivity |].
    intros Hcols. destruct (proj2 (Hcols "category")) as [Heq | [Heq | []]].
    + simpl. tauto.
    + discriminate Heq.
    + discriminate Heq.
  - vm_compute in He. discriminate He.
Qed.

Lemma load_fails_iff_no_file_or_no_id_witness :
  Forall (fun record => length record <= 2) (Pandas.records Samples.no_id_csv)
  /\ Notebook.load Samples.infer_int Pandas.default_na_values
       (Samples.only Samples.no_id_csv)
     = inl (Py.ValueError "Index id invalid")
  /\ Notebook.load Samples.infer_int Pandas.default_na_values
       (Samples.only Samples.chistes_csv)
     = inr {| Pandas.index := [Pandas.Int 1; Pandas.Int 2];
              Pandas.columns :=
                [("text", [Pandas.Str "Van dos y se cae el del medio";
                           Pandas.Str "1234"]);
                 ("category", [Pandas.Str "otros"; Pandas.Str "otros"])] |}
  /\ Notebook.load Samples.infer_int Samples.later_na_values
       (Samples.only Samples.marked_csv)
     = inr {| Pandas.index := [Pandas.Int 1; Pandas.Int 2];
              Pandas.columns :=
                [("text", [Pandas.Str "Van dos y se cae el del medio";
                           Pandas.NaN])] |}
  /\ Notebook.load Samples.infer_int Pandas.default_na_values Samples.no_file
     = inl Py.FileNotFoundError
  /\ Notebook.load Samples.infer_int Pandas.default_na_values Samples.undecodable
     = inl (Py.OtherError "UnicodeDecodeError").
Proof.
  assert (Hwidth : Forall (fun record => length record <= 2)
                     (Pandas.records Samples.no_id_csv)).
  { repeat constructor. }
  split; [exact Hwidth |]. split.
  - refine (proj1 (proj2 (proj2 (proj2
              (load_fails_iff_no_file_or_no_id Samples.infer_int
                 Pandas.default_na_values (Samples.only Samples.no_id_csv) _))))
              Samples.no_id_csv eq_refl _ _).
    + intros f Hfile. injection Hfile as <-. exact Hwidth.
    + discriminate.
    + simpl. intros [H | [H | []]]; discriminate H.
  - repeat split; reflexivity.
Defined.

(** ** Row alignment of the table and the topic weights *)

Section Alignment.
Import Pandas Notebook.

Lemma scalar_eqb_eq (a b : scalar) : scalar_eqb a b = true <-> a = b.
Proof.
  destruct a, b; simpl; split; try discriminate; try reflexivity.
  - intros H. apply String.eqb_eq in H. now subst.
  - intros [= ->]. apply String.eqb_refl.
  - intros H. apply Z.eqb_eq in H. now subst.
  - intros [= ->]. apply Z.eqb_refl.
  - intros H. apply andb_prop in H. destruct H as [Hn Hd].
    apply Z.eqb_eq in Hn. apply Pos.eqb_eq in Hd. now subst.
  - intros [= -> ->]. now rewrite Z.eqb_refl, Pos.eqb_refl.
Qed.

Lemma index_eqb_eq (i j : list scalar) : index_eqb i j = true <-> i = j.
Proof.
  unfold index_eqb. revert j. induction i as [| a i IH]; intros [| b j]; simpl;
    split; try discriminate; try reflexivity.
  - intros H. apply andb_prop in H. destruct H as [Hlen H].
    apply andb_prop in H. destruct H as [Hab Hrest].
    apply scalar_eqb_eq in Hab. subst b. f_equal. apply IH.
    now rewrite Hlen, Hrest.
  - intros [= -> ->]. pose proof (proj2 (IH j) eq_refl) as H.
    apply andb_prop in H. destruct H as [Hlen Hrest].
    rewrite Hlen, Hrest, (proj2 (scalar_eqb_eq b b) eq_refl). reflexivity.
Qed.

(** When the table is labelled [0 .. n-1], the topic weights are glued to
    it row by row. *)
Lemma jokes_with_topics_weights_from_zero (df : DataFrame)
    (topics : list (list scalar)) :
  index df = RangeIndex (length topics) ->
  jokes_with_topics_weights df topics
  = {| index := index df;
       columns := columns df
                  ++ columns (DataFrame_of_rows topics None topic_columns) |}.
Proof.
  intros Hix. unfold jokes_with_topics_weights, concat_axis1.
  assert (Heq : index_eqb (index df)
                  (index (DataFrame_of_rows topics None topic_columns)) = true).
  { apply index_eqb_eq. exact Hix. }
  now rewrite Heq.
Qed.

(** When label 0 is no id of the table, gluing the topic weights adds
    rows: the result has more rows than there are documents. *)
Lemma jokes_with_topics_weights_extra_rows (df : DataFrame)
    (topics : list (list scalar)) :
  topics <> [] ->
  ~ In (Int 0) (index df) ->
  n_rows df < n_rows (jokes_with_topics_weights df topics).
Proof.
  intros Hne Hzero. unfold jokes_with_topics_weights, concat_axis1.
  destruct topics as [| row0 topics]; [contradiction |].
  destruct (index_eqb (index df)
              (index (DataFrame_of_rows (row0 :: topics) None topic_columns)))
    eqn:Heq.
  - apply index_eqb_eq in Heq. exfalso. apply Hzero. rewrite Heq. now left.
  - unfold n_rows, union_index. cbn [index DataFrame_of_rows RangeIndex length seq map].
    rewrite length_app. cbn [filter].
    assert (Hout : existsb (scalar_eqb (Int (Z.of_nat 0))) (index df) = false).
    { destruct (existsb (scalar_eqb (Int (Z.of_nat 0))) (index df)) eqn:Hex;
        [| reflexivity].
      apply existsb_exists in Hex. destruct Hex as [l [Hl Hl0]].
      apply scalar_eqb_eq in Hl0. subst l. contradiction. }
    rewrite Hout. cbn [negb length]. lia.
Qed.

(** The sibling cells pass [index=df.index], which keeps the rows of the
    counts under the labels of the table. *)
Lemma counted_keeps_index (df : DataFrame) (bag_of_words : list (list scalar))
    (feature_names : list string) :
  index (counted df bag_of_words feature_names) = index df.
Proof. reflexivity. Qed.

(** C1 at a table whose ids start at 1.  Two jokes and two rows of topic
    weights give a table of three rows: the joke with id 1 carries the
    weights of the second joke, the joke with id 2 none, and the weights of
    the first joke sit in a row of their own. *)
Theorem topic_weights_misaligned_when_ids_start_at_one :
  n_rows Samples.two_jokes = 2
  /\ length Samples.two_topics = 2
  /\ n_rows (jokes_with_topics_weights Samples.two_jokes Samples.two_topics) = 3
  /\ loc (jokes_with_topics_weights Samples.two_jokes Samples.two_topics) (Int 1)
     = Some ([Str "primero"; Str "otros"] ++ Samples.weights_on 1)
  /\ loc (jokes_with_topics_weights Samples.two_jokes Samples.two_topics) (Int 2)
     = Some ([Str "segundo"; Str "animales"] ++ repeat NaN 10)
  /\ loc (jokes_with_topics_weights Samples.two_jokes Samples.two_topics) (Int 0)
     = Some ([NaN; NaN] ++ Samples.weights_on 0).
Proof. vm_compute. repeat split. Qed.

(** The same jokes with ids starting at 0 keep their own weights. *)
Lemma topic_weights_aligned_when_ids_start_at_zero :
  n_rows (jokes_with_topics_weights Samples.two_jokes_from_zero Samples.two_topics) = 2
  /\ loc (jokes_with_topics_weights Samples.two_jokes_from_zero Samples.two_topics)
       (Int 0)
     = Some ([Str "primero"; Str "otros"] ++ Samples.weights_on 0)
  /\ loc (jokes_with_topics_weights Samples.two_jokes_from_zero Samples.two_topics)
       (Int 1)
     = Some ([Str "segundo"; Str "animales"] ++ Samples.weights_on 1).
Proof. vm_compute. repeat split. Qed.

End Alignment.

(** ** More on the split *)

Section SplitPartition.
Import Sklearn.

Variable rng : Type.
Variable RandomState : Z -> rng.
Variable permutation : rng -> nat -> list nat.

Lemma pair_rows {A B : Type} (X : list A) (y : list B) (indices : list nat)
    (rows : list A) (labels : list B) :
  Forall2 (fun i x => nth_error X i = Some x) indices rows ->
  Forall2 (fun i l => nth_error y i = Some l) indices labels ->
  Forall2 (fun x l => exists i, nth_error X i = Some x /\ nth_error y i = Some l)
    rows labels.
Proof.
  intros HX. revert labels.
  induction HX as [| i x indices rows Hx _ IH]; intros labels Hy;
    inversion Hy as [| ? l ? labels' Hl Hrest]; subst; constructor.
  - exists i. now split.
  - now apply IH.
Qed.

(** X1.  Whatever the generator draws, a split that returns keeps rows and
    labels together: the k-th training row and the k-th training label sit
    at one and the same position of the inputs, and so do the k-th test row
    and label. *)
Theorem train_test_split_keeps_pairs {A B : Type} (g : rng) (X : list A)
    (y : list B) (seed : option Z) (X_train X_test : list A)
    (y_train y_test : list B) :
  train_test_split rng RandomState permutation g X y seed
  = inr (X_train, X_test, y_train, y_test) ->
  Forall2 (fun x l => exists i, nth_error X i = Some x /\ nth_error y i = Some l)
    X_train y_train
  /\ Forall2 (fun x l => exists i, nth_error X i = Some x /\ nth_error y i = Some l)
       X_test y_test.
Proof.
  intros H. apply train_test_split_aligned in H.
  destruct H as [_ [ind_train [ind_test [_ [H1 [H2 [H3 H4]]]]]]].
  split; eapply pair_rows; eassumption.
Qed.

Lemma take_in_range {A : Type} (a : list A) (indices : list nat) :
  Forall (fun i => i < length a) indices ->
  exists rows, take a indices = inr rows
               /\ Forall2 (fun i x => nth_error a i = Some x) indices rows.
Proof.
  intros H. destruct (mapM_getitem_in_range a indices H) as [rows [Hrows _]].
  exists rows. split; [exact Hrows | now apply take_rows].
Qed.

Lemma nth_error_all {A : Type} (a : list A) :
  map (nth_error a) (seq 0 (length a)) = map Some a.
Proof.
  induction a as [| x a IH]; simpl; [reflexivity |].
  f_equal. rewrite <- seq_shift, map_map. exact IH.
Qed.

Lemma map_Some_inj {A : Type} (l l' : list A) :
  map Some l = map Some l' -> l = l'.
Proof.
  revert l'. induction l as [| x l IH]; intros [| x' l'] H; simpl in H;
    try discriminate H.
  - reflexivity.
  - injection H as -> H. f_equal. now apply IH.
Qed.

(** Rows picked at positions that are a rearrangement of all positions are a
    rearrangement of all rows. *)
Lemma picked_rows_Permutation {A : Type} (a : list A) (indices : list nat)
    (rows : list A) :
  Forall2 (fun i x => nth_error a i = Some x) indices rows ->
  Permutation indices (seq 0 (length a)) ->
  Permutation rows a.
Proof.
  intros Hrows Hperm.
  assert (Hmap : map (nth_error a) indices = map Some rows).
  { clear Hperm.
    induction Hrows as [| i x indices rows Hx _ IH]; simpl; [reflexivity |].
    rewrite Hx. f_equal. apply IH. }
  apply (Permutation_map (nth_error a)) in Hperm.
  rewrite nth_error_all, Hmap in Hperm.
  apply Permutation_sym, Permutation_map_inv in Hperm.
  destruct Hperm as [rows' [Heq Hp]].
  apply map_Some_inj in Heq. now subst rows'.
Qed.

Lemma n_test_le (n : nat) : 1 <= n -> n_test n <= n.
Proof.
  intros H. unfold n_test.
  apply Nat.Div0.div_le_upper_bound. lia.
Qed.

(** X2.  When the generator draws a rearrangement of the row positions and
    there are at least two rows, the split returns: the test part has
    [ceil(n/4)] rows, the training part the other rows, and every row with
    its label lands in exactly one of the two parts. *)
Theorem train_test_split_partitions {A B : Type} (g : rng) (X : list A)
    (y : list B) (seed : option Z) :
  length X = length y ->
  2 <= length X ->
  Permutation (permutation (check_random_state rng RandomState g seed) (length X))
    (seq 0 (length X)) ->
  exists X_train X_test y_train y_test,
    train_test_split rng RandomState permutation g X y seed
    = inr (X_train, X_test, y_train, y_test)
    /\ length X_test = (length X + 3) / 4
    /\ length X_train = length X - (length X + 3) / 4
    /\ length y_test = length X_test
    /\ length y_train = length X_train
    /\ Permutation (X_test ++ X_train) X
    /\ Permutation (y_test ++ y_train) y.
Proof.
  intros Hlen Htwo Hperm.
  set (n := length X) in *.
  set (perm := permutation (check_random_state rng RandomState g seed) n) in *.
  assert (Hnt : n_test n <= n) by (apply n_test_le; lia).
  assert (Hntr : n_train n <> 0).
  { unfold n_train, n_test. intros H0.
    assert (Hge : n <= (n + 3) / 4) by lia.
    assert (Hup : (n + 3) / 4 * 4 <= n + 3).
    { rewrite Nat.mul_comm. apply Nat.Div0.mul_div_le. }
    lia. }
  assert (Hpl : length perm = n).
  { rewrite (Permutation_length Hperm). apply length_seq. }
  assert (Hrange : Forall (fun i => i < n) perm).
  { apply Forall_forall. intros i Hi.
    apply (Permutation_in _ Hperm) in Hi. apply in_seq in Hi. lia. }
  assert (Htrain : firstn (n_train n) (skipn (n_test n) perm) = skipn (n_test n) perm).
  { apply firstn_all2. rewrite length_skipn. unfold n_train. lia. }
  assert (Hsplit : perm = firstn (n_test n) perm ++ skipn (n_test n) perm).
  { symmetry. apply firstn_skipn. }
  assert (Hr1 : Forall (fun i => i < n) (firstn (n_test n) perm)).
  { rewrite Hsplit in Hrange. now apply Forall_app in Hrange. }
  assert (Hr2 : Forall (fun i => i < n) (skipn (n_test n) perm)).
  { rewrite Hsplit in Hrange. now apply Forall_app in Hrange. }
  destruct (take_in_range X _ Hr2) as [Xtr [HXtr FXtr]].
  destruct (take_in_range X _ Hr1) as [Xte [HXte FXte]].
  assert (Hr1y : Forall (fun i => i < length y) (firstn (n_test n) perm)).
  { now rewrite <- Hlen. }
  assert (Hr2y : Forall (fun i => i < length y) (skipn (n_test n) perm)).
  { now rewrite <- Hlen. }
  destruct (take_in_range y _ Hr2y) as [ytr [Hytr Fytr]].
  destruct (take_in_range y _ Hr1y) as [yte [Hyte Fyte]].
  exists Xtr, Xte, ytr, yte.
  assert (Lte : length Xte = n_test n).
  { rewrite <- (Forall2_length FXte), length_firstn. lia. }
  assert (Ltr : length Xtr = n - n_test n).
  { rewrite <- (Forall2_length FXtr), length_skipn. lia. }
  split.
  - unfold train_test_split, shuffle_split. fold n. fold perm.
    rewrite <- Hlen. fold n. rewrite Nat.eqb_refl. cbn [negb].
    destruct (Nat.eqb (n_train n) 0) eqn:H0;
      [apply Nat.eqb_eq in H0; contradiction |].
    rewrite Htrain, HXtr, HXte, Hytr, Hyte. reflexivity.
  - split; [exact Lte |]. split; [exact Ltr |].
    split; [now rewrite <- (Forall2_length Fyte), (Forall2_length FXte) |].
    split; [now rewrite <- (Forall2_length Fytr), (Forall2_length FXtr) |].
    split.
    + apply (picked_rows_Permutation X perm); [| exact Hperm].
      rewrite Hsplit. now apply Forall2_app.
    + apply (picked_rows_Permutation y perm); [| now rewrite <- Hlen].
      rewrite Hsplit. now apply Forall2_app.
Qed.

End SplitPartition.

Lemma train_test_split_keeps_pairs_witness :
  Forall2 (fun x l => exists i, nth_error ["a"; "b"; "c"; "d"] i = Some x
                                /\ nth_error [10; 20; 30; 40] i = Some l)
    ["c"; "d"; "a"] [30; 40; 10]
  /\ Forall2 (fun x l => exists i, nth_error ["a"; "b"; "c"; "d"] i = Some x
                                   /\ nth_error [10; 20; 30; 40] i = Some l)
       ["b"] [20].
Proof.
  apply (train_test_split_keeps_pairs nat Z.to_nat Samples.rotate 0
           ["a"; "b"; "c"; "d"] [10; 20; 30; 40] (Some 1%Z)).
  reflexivity.
Defined.

Lemma train_test_split_partitions_witness :
  exists X_train X_test y_train y_test,
    Sklearn.train_test_split nat Z.to_nat Samples.rotate 0
      ["a"; "b"; "c"; "d"; "e"] [10; 20; 30; 40; 50] (Some 1%Z)
    = inr (X_train, X_test, y_train, y_test)
    /\ length X_test = (5 + 3) / 4
    /\ length X_train = 5 - (5 + 3) / 4
    /\ length y_test = length X_test
    /\ length y_train = length X_train
    /\ Permutation (X_test ++ X_train) ["a"; "b"; "c"; "d"; "e"]
    /\ Permutation (y_test ++ y_train) [10; 20; 30; 40; 50].
Proof.
  apply (train_test_split_partitions nat Z.to_nat Samples.rotate 0
           ["a"; "b"; "c"; "d"; "e"] [10; 20; 30; 40; 50] (Some 1%Z)).
  - reflexivity.
  - simpl. lia.
  - change (Permutation [1; 2; 3; 4; 0] [0; 1; 2; 3; 4]).
    apply Permutation_sym.
    apply (Permutation_cons_app [1; 2; 3; 4] [] 0). apply Permutation_refl.
Defined.

Section RunFacts.
Import Sklearn Notebook.

Variable analyzer : string -> list string.
Variable rng : Type.
Variable RandomState : Z -> rng.
Variable permutation : rng -> nat -> list nat.
Variable row : Type.
Variable tfidf_row : list string -> list string -> string -> row.
Variable forest : Type.
Variable forest_fit : rng -> nat -> list row -> list nat -> forest.
Variable forest_predict : forest -> row -> nat.

Lemma nth_error_map_inv {A B : Type} (f : A -> B) (l : list A) (i : nat) (b : B) :
  nth_error (map f l) i = Some b ->
  exists a, nth_error l i = Some a /\ b = f a.
Proof.
  revert i. induction l as [| a l IH]; intros [| i]; simpl; try discriminate.
  - intros [= <-]. now exists a.
  - apply IH.
Qed.

Lemma score_bounds (clf : forest) (X : list row) (y : list nat) :
  snd (score row forest forest_predict clf X y) = length X
  /\ (length X = length y ->
      fst (score row forest forest_predict clf X y)
      <= snd (score row forest forest_predict clf X y)).
Proof.
  unfold score. simpl. split; [reflexivity |]. intros Hlen.
  eapply Nat.le_trans; [apply filter_length_le |].
  rewrite length_combine. lia.
Qed.

(** X3.  In the outcome of a run that returns, every training row is the
    tf-idf row of a joke and the label beside it is the encoded category of
    that same joke, and likewise for the test part; the texts and the
    categories had the same number of rows; and each score counts matches
    out of the rows of its part, never more matches than rows. *)
Theorem split_train_evaluate_rows_match_labels
    (g : rng) (filtered_text category : list string) (r : outcome row) :
  split_train_evaluate analyzer rng RandomState permutation row tfidf_row
    forest forest_fit forest_predict g filtered_text category = inr r ->
  let same_joke x l :=
    exists i doc c,
      nth_error filtered_text i = Some doc
      /\ nth_error category i = Some c
      /\ x = tfidf_row (important_words row r) filtered_text doc
      /\ encode (fit category) c = inr l in
  length filtered_text = length category
  /\ Forall2 same_joke (X_train row r) (y_train row r)
  /\ Forall2 same_joke (X_test row r) (y_test row r)
  /\ snd (train_score row r) = length (X_train row r)
  /\ fst (train_score row r) <= snd (train_score row r)
  /\ snd (test_score row r) = length (X_test row r)
  /\ fst (test_score row r) <= snd (test_score row r).
Proof.
  unfold split_train_evaluate, tfidf_vectorizer, max_jokes_with_that_word.
  destruct (fit_vocabulary analyzer 200 500 filtered_text) as [e | words];
    cbn [Py.bind]; [intros H; discriminate H |].
  destruct (train_test_split rng RandomState permutation g
              (map (tfidf_row words filtered_text) filtered_text)
              (snd (fit_transform category)) (Some 1%Z))
    as [e | [[[Xtr Xte] ytr] yte]] eqn:Hsplit; cbn [Py.bind];
    [intros H; discriminate H |].
  unfold Py.ret. intros [= <-].
  cbn [important_words X_train X_test y_train y_test train_score test_score].
  apply train_test_split_aligned in Hsplit.
  destruct Hsplit as [Hlen [ind_train [ind_test [_ [H1 [H2 [H3 H4]]]]]]].
  unfold fit_transform in Hlen, H2, H4. cbn [snd] in Hlen, H2, H4.
  rewrite !length_map in Hlen.
  assert (Hpair : forall indices (rows : list row) (labels : list nat),
             Forall2 (fun i x => nth_error
                        (map (tfidf_row words filtered_text) filtered_text) i
                        = Some x) indices rows ->
             Forall2 (fun i l => nth_error
                        (map (Numpy.searchsorted (fit category)) category) i
                        = Some l) indices labels ->
             Forall2 (fun x l =>
                        exists i doc c,
                          nth_error filtered_text i = Some doc
                          /\ nth_error category i = Some c
                          /\ x = tfidf_row words filtered_text doc
                          /\ encode (fit category) c = inr l) rows labels).
  { intros indices rows labels HX. revert labels.
    induction HX as [| i x indices rows Hx _ IH]; intros labels Hy;
      inversion Hy as [| ? l ? labels' Hl Hrest]; subst; constructor.
    - apply nth_error_map_inv in Hx, Hl.
      destruct Hx as [doc [Hdoc ->]]. destruct Hl as [c [Hc ->]].
      exists i, doc, c. repeat split; try assumption.
      apply encode_return. split; [| reflexivity].
      apply (proj2 (fit_In category c)). eapply nth_error_In. exact Hc.
    - now apply IH. }
  split; [exact Hlen |].
  split; [exact (Hpair _ _ _ H1 H2) |].
  split; [exact (Hpair _ _ _ H3 H4) |].
  set (clf := forest_fit _ _ _ _).
  destruct (score_bounds clf Xtr ytr) as [S1 B1].
  destruct (score_bounds clf Xte yte) as [S2 B2].
  split; [exact S1 |]. split.
  - apply B1. now rewrite <- (Forall2_length H1), <- (Forall2_length H2).
  - split; [exact S2 |].
    apply B2. now rewrite <- (Forall2_length H3), <- (Forall2_length H4).
Qed.

End RunFacts.

Lemma split_train_evaluate_rows_match_labels_witness :
  exists r,
    Notebook.split_train_evaluate Samples.words_of nat Z.to_nat Samples.rotate
      string Samples.text_row (list (string * nat)) Samples.memorize
      Samples.recall 0 Samples.small_corpus ["otros"; "animales"; "otros"]
    = inr r
    /\ length Samples.small_corpus = length ["otros"; "animales"; "otros"]
    /\ snd (Notebook.train_score string r) = length (Notebook.X_train string r)
    /\ fst (Notebook.train_score string r) <= snd (Notebook.train_score string r).
Proof.
  eexists. split; [reflexivity |].
  pose proof (split_train_evaluate_rows_match_labels Samples.words_of nat
                Z.to_nat Samples.rotate string Samples.text_row
                (list (string * nat)) Samples.memorize Samples.recall 0
                Samples.small_corpus ["otros"; "animales"; "otros"] _ eq_refl)
    as H.
  cbv zeta in H. destruct H as [H1 [_ [_ [H4 [H5 _]]]]].
  split; [exact H1 |]. split; [exact H4 | exact H5].
Defined.

(** ** Joining by label *)

Section JoinByLabel.
Import Pandas Frames Notebook Cells.

Lemma existsb_scalar_In (l : scalar) (labels : list scalar) :
  existsb (scalar_eqb l) labels = true <-> In l labels.
Proof.
  rewrite existsb_exists. split.
  - intros [x [Hin Hx]]. apply scalar_eqb_eq in Hx. now subst.
  - intros Hin. exists l. split; [exact Hin | now apply scalar_eqb_eq].
Qed.

Lemma filter_nil_iff {A : Type} (f : A -> bool) (l : list A) :
  filter f l = [] <-> forall x, In x l -> f x = false.
Proof.
  induction l as [| a l IH]; simpl.
  - split; [intros _ x [] | reflexivity].
  - destruct (f a) eqn:Ha.
    + split; [discriminate |]. intros H. specialize (H a (or_introl eq_refl)).
      congruence.
    + rewrite IH. split.
      * intros H x [<- | Hx]; [exact Ha | now apply H].
      * intros H x Hx. apply H. now right.
Qed.

Lemma In_RangeIndex (n : nat) (l : scalar) :
  In l (RangeIndex n) <-> exists p, p < n /\ l = Int (Z.of_nat p).
Proof.
  unfold RangeIndex. rewrite in_map_iff. split.
  - intros [p [<- Hp]]. apply in_seq in Hp. exists p. split; [lia | reflexivity].
  - intros [p [Hp ->]]. exists p. split; [reflexivity | apply in_seq; lia].
Qed.

(** X4.  Take a table of jokes whose ids are distinct integers, as pandas
    needs to match rows by label.  Gluing the topic weights (a matrix of ten
    columns) keeps the number of rows exactly when every position
    [0 .. n-1] of the weights is the id of a joke; otherwise the joined
    table has more rows than the table of jokes. *)
Theorem jokes_with_topics_weights_row_count (df : DataFrame)
    (topics : list (list scalar)) :
  Forall (fun row => length row = 10) topics ->
  NoDup (index df) ->
  (forall label, In label (index df) -> exists id, label = Int id) ->
  (n_rows (jokes_with_topics_weights df topics) = n_rows df
   <-> forall p, p < length topics -> In (Int (Z.of_nat p)) (index df))
  /\ n_rows df <= n_rows (jokes_with_topics_weights df topics).
Proof.
  intros _ _ _. unfold jokes_with_topics_weights, concat_axis1.
  cbn [index DataFrame_of_rows].
  destruct (index_eqb (index df) (RangeIndex (length topics))) eqn:Heq.
  - apply index_eqb_eq in Heq. unfold n_rows. cbn [index]. split; [| lia].
    split; [| reflexivity]. intros _ p Hp. rewrite Heq.
    apply In_RangeIndex. now exists p.
  - unfold n_rows, union_index. cbn [index]. rewrite length_app. split; [| lia].
    split.
    + intros Hsame p Hp.
      assert (Hnil : filter (fun l => negb (existsb (scalar_eqb l) (index df)))
                       (RangeIndex (length topics)) = []).
      { apply length_zero_iff_nil. lia. }
      rewrite filter_nil_iff in Hnil.
      specialize (Hnil (Int (Z.of_nat p))).
      apply existsb_scalar_In. apply negb_false_iff. apply Hnil.
      apply In_RangeIndex. now exists p.
    + intros Hall.
      assert (Hnil : filter (fun l => negb (existsb (scalar_eqb l) (index df)))
                       (RangeIndex (length topics)) = []).
      { apply filter_nil_iff. intros l Hl. apply In_RangeIndex in Hl.
        destruct Hl as [p [Hp ->]]. apply negb_false_iff.
        apply existsb_scalar_In. now apply Hall. }
      rewrite Hnil. simpl. lia.
Qed.

Lemma jokes_with_topics_weights_row_count_witness :
  n_rows (jokes_with_topics_weights Samples.two_jokes_from_zero Samples.two_topics)
  = n_rows Samples.two_jokes_from_zero
  /\ n_rows Samples.two_jokes
     < n_rows (jokes_with_topics_weights Samples.two_jokes Samples.two_topics).
Proof.
  assert (Hdistinct : NoDup (index Samples.two_jokes_from_zero)).
  { repeat constructor; simpl; intuition discriminate. }
  assert (Hids : forall label, In label (index Samples.two_jokes_from_zero) ->
                               exists id, label = Int id).
  { intros label [<- | [<- | []]]; eexists; reflexivity. }
  split.
  - apply (proj1 (jokes_with_topics_weights_row_count
                    Samples.two_jokes_from_zero Samples.two_topics
                    ltac:(repeat constructor) Hdistinct Hids)).
    intros p Hp. simpl in Hp.
    destruct p as [| [| p]]; [now left | right; now left | lia].
  - vm_compute. lia.
Defined.

(** A label of [0 .. n-1] finds the cell at its own position. *)
Lemma assoc_range {A : Type} (cells : list A) (n p start : nat) :
  start <= p ->
  assoc (Int (Z.of_nat p))
    (combine (map (fun k => Int (Z.of_nat k)) (seq start n)) cells)
  = if Nat.ltb p (start + n) then nth_error cells (p - start) else None.
Proof.
  revert cells start. induction n as [| n IH]; intros cells start Hp.
  - simpl. destruct (Nat.ltb_spec p (start + 0)); [lia | reflexivity].
  - destruct cells as [| c cells].
    + simpl. destruct (Nat.ltb p (start + S n)); [| reflexivity].
      now destruct (p - start).
    + cbn [seq map combine assoc scalar_eqb].
      destruct (Z.eqb_spec (Z.of_nat p) (Z.of_nat start)) as [Heq | Hne].
      * apply Nat2Z.inj in Heq. subst p. rewrite Nat.sub_diag.
        destruct (Nat.ltb_spec start (start + S n)); [reflexivity | lia].
      * assert (Hlt : S start <= p) by lia.
        rewrite (IH cells (S start) Hlt).
        replace (S start + n) with (start + S n) by lia.
        replace (p - start) with (S (p - S start)) by lia. reflexivity.
Qed.

Lemma cell_at_label (cells : list scalar) (n p : nat) :
  p < n ->
  match assoc (Int (Z.of_nat p)) (combine (RangeIndex n) cells) with
  | Some v => v
  | None => NaN
  end = nth p cells NaN.
Proof.
  intros Hp. unfold RangeIndex. rewrite assoc_range by lia.
  destruct (Nat.ltb_spec p (0 + n)); [| lia]. rewrite Nat.sub_0_r.
  destruct (nth_error cells p) as [v |] eqn:Hnth.
  - symmetry. now apply nth_error_nth.
  - symmetry. apply nth_overflow. now apply nth_error_None.
Qed.

(** X5.  When the jokes are labelled [0 .. n-1] in order, the joined table
    holds in the row of joke [p] the cells of that joke followed by the ten
    weights of the p-th row of the topic matrix. *)
Theorem jokes_with_topics_weights_rows_from_zero (df : DataFrame)
    (topics : list (list scalar)) (p : nat) :
  Forall (fun row => length row = 10) topics ->
  index df = RangeIndex (length topics) ->
  p < length topics ->
  loc (jokes_with_topics_weights df topics) (Int (Z.of_nat p))
  = Some (map (fun c => nth p (snd c) NaN) (columns df)
          ++ map (fun j => nth j (nth p topics []) NaN) (seq 0 10)).
Proof.
  intros _ Hix Hp. rewrite (jokes_with_topics_weights_from_zero df topics Hix).
  unfold loc. cbn [index columns].
  assert (Hin : existsb (scalar_eqb (Int (Z.of_nat p))) (index df) = true).
  { apply existsb_scalar_In. rewrite Hix. apply In_RangeIndex. now exists p. }
  rewrite Hin, map_app. f_equal. f_equal.
  - apply map_ext. intros c. rewrite Hix. now apply cell_at_label.
  - unfold DataFrame_of_rows. cbn [columns].
    rewrite map_map. rewrite Hix.
    assert (Hcols : forall (names : list string) (start : nat),
               map (fun jn : nat * string =>
                      match assoc (Int (Z.of_nat p))
                              (combine (RangeIndex (length topics))
                                 (snd (snd jn,
                                       map (fun row => nth (fst jn) row NaN) topics)))
                      with
                      | Some v => v
                      | None => NaN
                      end) (combine (seq start (length names)) names)
               = map (fun j => nth j (nth p topics []) NaN)
                   (seq start (length names))).
    { induction names as [| name names IH]; intros start; simpl; [reflexivity |].
      rewrite IH. f_equal.
      rewrite (cell_at_label _ _ _ Hp).
      rewrite <- (map_nth (fun row : list scalar => nth start row NaN)).
      assert (Hd : nth start (@nil scalar) NaN = NaN) by now destruct start.
      now rewrite Hd. }
    exact (Hcols topic_columns 0).
Qed.

Lemma jokes_with_topics_weights_rows_from_zero_witness :
  loc (jokes_with_topics_weights Samples.two_jokes_from_zero Samples.two_topics)
    (Int (Z.of_nat 1))
  = Some (map (fun c => nth 1 (snd c) NaN) (columns Samples.two_jokes_from_zero)
          ++ map (fun j => nth j (nth 1 Samples.two_topics []) NaN) (seq 0 10)).
Proof.
  apply (jokes_with_topics_weights_rows_from_zero Samples.two_jokes_from_zero
           Samples.two_topics 1).
  - repeat constructor.
  - reflexivity.
  - simpl. lia.
Defined.

End JoinByLabel.

(** ** The batch filtering step, row by row *)

Section FilterRows.
Import Spacy Pandas Filter Notebook.

(** What the step does with the first row. *)
Lemma filter_texts_cons (nlp : Language) (label : scalar) (t : string)
    (texts : Series) :
  filter_texts nlp ((label, Str t) :: texts)
  = match nlp t with
    | inl e => inl e
    | inr processed =>
        match filter_texts nlp texts with
        | inl e => inl e
        | inr out =>
            inr ((label, Str (Py.join " " (map lemma_ (filter is_content processed))))
                 :: out)
        end
    end.
Proof.
  unfold filter_texts. cbn [apply on_text].
  destruct (nlp t) as [e | processed] eqn:Hnlp.
  - unfold keep_only_content_words. now rewrite Hnlp.
  - rewrite (keep_only_content_words_unfold _ _ _ Hnlp). reflexivity.
Qed.

(** X6.  On a column of strings the batch filtering step returns exactly
    when the annotator accepts every text.  It then returns one filtered
    text per joke, under the joke's own label and in row order, each being
    the lemmas of the content words that the annotator found in that joke's
    text, joined by single spaces. *)
Theorem filter_texts_row_by_row (nlp : Language) (texts : list (scalar * string)) :
  ((exists out,
       filter_texts nlp (map (fun lt => (fst lt, Str (snd lt))) texts) = inr out)
   <-> (forall lt, In lt texts -> exists processed, nlp (snd lt) = inr processed))
  /\ (forall out,
        filter_texts nlp (map (fun lt => (fst lt, Str (snd lt))) texts) = inr out ->
        Forall2 (fun lt lw =>
                   fst lw = fst lt
                   /\ exists processed,
                        nlp (snd lt) = inr processed
                        /\ snd lw
                           = Str (Py.join " "
                                    (map lemma_ (filter is_content processed))))
          texts out).
Proof.
  induction texts as [| [label t] texts [[IHreturns IHaccepts] IHrows]].
  - split; [split |].
    + intros _ lt [].
    + intros _. now exists [].
    + intros out [= <-]. constructor.
  - cbn [map fst snd]. rewrite filter_texts_cons.
    destruct (nlp t) as [e | processed] eqn:Hnlp.
    + split; [split |].
      * intros [out Hout]. discriminate Hout.
      * intros Hall. destruct (Hall (label, t) (or_introl eq_refl)) as [d Hd].
        simpl in Hd. rewrite Hnlp in Hd. discriminate Hd.
      * intros out Hout. discriminate Hout.
    + destruct (filter_texts nlp (map (fun lt => (fst lt, Str (snd lt))) texts))
        as [e | rest] eqn:Hrest.
      * split; [split |].
        -- intros [out Hout]. discriminate Hout.
        -- intros Hall. destruct IHaccepts as [out Hout].
           ++ intros lt Hin. apply Hall. now right.
           ++ discriminate Hout.
        -- intros out Hout. discriminate Hout.
      * split; [split |].
        -- intros _ lt [<- | Hin].
           ++ now exists processed.
           ++ apply IHreturns; [now exists rest | exact Hin].
        -- intros _. eexists. reflexivity.
        -- intros out [= <-]. constructor.
           ++ split; [reflexivity |]. now exists processed.
           ++ now apply IHrows.
Qed.

End FilterRows.

Lemma filter_texts_row_by_row_witness :
  Notebook.filter_texts Samples.nlp_perro
    (map (fun lt => (fst lt, Pandas.Str (snd lt)))
       [(Pandas.Int 0, "El perro ladra."); (Pandas.Int 1, "perro ladrar")])
  = inr [(Pandas.Int 0, Pandas.Str "perro ladrar");
         (Pandas.Int 1, Pandas.Str "perro ladrar")]
  /\ Forall2 (fun lt lw =>
                fst lw = fst lt
                /\ exists processed,
                     Samples.nlp_perro (snd lt) = inr processed
                     /\ snd lw
                        = Pandas.Str
                            (Py.join " "
                               (map Spacy.lemma_
                                  (filter Filter.is_content processed))))
       [(Pandas.Int 0, "El perro ladra."); (Pandas.Int 1, "perro ladrar")]
       [(Pandas.Int 0, Pandas.Str "perro ladrar");
        (Pandas.Int 1, Pandas.Str "perro ladrar")].
Proof.
  split; [reflexivity |].
  apply (proj2 (filter_texts_row_by_row Samples.nlp_perro
                  [(Pandas.Int 0, "El perro ladra."); (Pandas.Int 1, "perro ladrar")])).
  reflexivity.
Defined.

(** ** The slice and the order of the top words *)

Section SliceReversed.

Lemma pick_prefix {A : Type} (l : list A) (count : nat) :
  count <= length l ->
  flat_map (fun k => match nth_error l k with Some x => [x] | None => [] end)
    (seq 0 count)
  = firstn count l.
Proof.
  revert count. induction l as [| a l IH]; intros count Hc.
  - simpl in Hc. assert (count = 0) by lia. now subst.
  - destruct count as [| c]; [reflexivity |].
    cbn [seq flat_map nth_error firstn app]. f_equal.
    rewrite <- seq_shift, flat_map_concat_map, map_map, <- flat_map_concat_map.
    apply IH. simpl in Hc. lia.
Qed.

(** [xs[:-n-1:-1]] is the last [n] entries of [xs], last one first (all of
    [xs] reversed when it has fewer than [n] entries). *)
Lemma slice_backwards_last_reversed {A : Type} (xs : list A) (n : nat) :
  Py.slice_backwards xs (- Z.of_nat n - 1) = firstn n (rev xs).
Proof.
  unfold Py.slice_backwards, Py.backwards_positions, Py.adjust_stop_backwards.
  set (len := length xs).
  assert (Hneg : (- Z.of_nat n - 1 <? 0)%Z = true) by (apply Z.ltb_lt; lia).
  rewrite Hneg.
  set (count := Z.to_nat
                  (Z.of_nat len - 1
                   - (if (- Z.of_nat n - 1 + Z.of_nat len <? 0)%Z
                      then (-1)%Z else (- Z.of_nat n - 1 + Z.of_nat len)%Z))).
  assert (Hcount : count = Nat.min n len).
  { unfold count.
    destruct (- Z.of_nat n - 1 + Z.of_nat len <? 0)%Z eqn:Hc;
      [apply Z.ltb_lt in Hc | apply Z.ltb_ge in Hc]; lia. }
  rewrite flat_map_concat_map, map_map.
  rewrite (map_ext_in _
             (fun k => match nth_error (rev xs) k with
                       | Some x => [x]
                       | None => []
                       end)).
  - rewrite <- flat_map_concat_map, pick_prefix.
    + rewrite Hcount. destruct (Nat.le_ge_cases n len) as [H | H].
      * now rewrite Nat.min_l.
      * rewrite Nat.min_r by exact H.
        rewrite !firstn_all2; rewrite ?length_rev; fold len; [reflexivity | lia | lia].
    + rewrite length_rev. fold len. lia.
  - intros k Hk. apply in_seq in Hk. rewrite nth_error_rev. fold len.
    destruct (Nat.ltb_spec k len) as [Hlt | Hge]; [| lia].
    replace (Z.to_nat (Z.of_nat len - 1 - Z.of_nat k)) with (len - S k) by lia.
    reflexivity.
Qed.

Lemma firstn_incl {A : Type} (n : nat) (l : list A) (x : A) :
  In x (firstn n l) -> In x l.
Proof.
  intros H. rewrite <- (firstn_skipn n l). apply in_or_app. now left.
Qed.

Lemma firstn_NoDup {A : Type} (n : nat) (l : list A) :
  NoDup l -> NoDup (firstn n l).
Proof.
  intros H. rewrite <- (firstn_skipn n l) in H.
  eapply NoDup_app_remove_r. exact H.
Qed.

End SliceReversed.

Section TopWordsOrder.
Import Numpy Notebook.

Context {W : Type}.
Variable leb : W -> W -> bool.
Hypothesis leb_total : forall a b, leb a b = true \/ leb b a = true.
Hypothesis leb_trans : forall a b c, leb a b = true -> leb b c = true -> leb a c = true.

Lemma insert_by_ascending (p : nat * W) (l : list (nat * W)) :
  StronglySorted (fun p q => leb (snd p) (snd q) = true) l ->
  StronglySorted (fun p q => leb (snd p) (snd q) = true) (insert_by leb p l).
Proof.
  induction 1 as [| q l Hs IH Hq]; simpl.
  - repeat constructor.
  - destruct (leb (snd p) (snd q)) eqn:Hpq.
    + constructor; [now constructor |]. constructor; [exact Hpq |].
      eapply Forall_impl; [| exact Hq]. intros r Hr. simpl in Hr.
      eapply leb_trans; eassumption.
    + constructor; [exact IH |]. apply Forall_forall. intros r Hr.
      apply (Permutation_in _ (insert_by_Permutation leb p l)) in Hr.
      destruct Hr as [<- | Hr].
      * destruct (leb_total (snd p) (snd q)); [congruence | assumption].
      * rewrite Forall_forall in Hq. now apply Hq.
Qed.

Lemma combine_seq_cells (a : list W) (start : nat) (p : nat * W) :
  In p (combine (seq start (length a)) a) ->
  start <= fst p /\ nth_error a (fst p - start) = Some (snd p).
Proof.
  revert start. induction a as [| x a IH]; intros start; simpl; [tauto |].
  intros [<- | Hin].
  - simpl. rewrite Nat.sub_diag. now split.
  - apply IH in Hin. destruct Hin as [Hle Hnth]. split; [lia |].
    replace (fst p - start) with (S (fst p - S start)) by lia. exact Hnth.
Qed.

(** [argsort] lists the positions by ascending entry. *)
Lemma argsort_ascending (a : list W) :
  exists pairs,
    argsort leb a = map fst pairs
    /\ StronglySorted (fun p q => leb (snd p) (snd q) = true) pairs
    /\ Forall (fun p => nth_error a (fst p) = Some (snd p)) pairs.
Proof.
  exists (fold_right (insert_by leb) [] (combine (seq 0 (length a)) a)).
  split; [reflexivity |]. split.
  - induction (combine (seq 0 (length a)) a) as [| p l IH]; simpl.
    + constructor.
    + now apply insert_by_ascending.
  - apply Forall_forall. intros p Hp.
    apply (Permutation_in _ (insertion_Permutation leb _)) in Hp.
    apply combine_seq_cells in Hp. destruct Hp as [_ Hp].
    now rewrite Nat.sub_0_r in Hp.
Qed.

Lemma ascending_nth {A : Type} (R : A -> A -> Prop) (l : list A) (i j : nat)
    (x y : A) :
  StronglySorted R l -> i < j ->
  nth_error l i = Some x -> nth_error l j = Some y -> R x y.
Proof.
  intros Hs. revert i j.
  induction Hs as [| z l Hs IH Hz]; intros i j Hij Hi Hj.
  - destruct i; discriminate.
  - destruct j as [| j]; [lia |]. simpl in Hj. destruct i as [| i]; simpl in Hi.
    + injection Hi as ->. rewrite Forall_forall in Hz.
      apply Hz. eapply nth_error_In; eassumption.
    + apply (IH i j); [lia | assumption | assumption].
Qed.

(** X7.  The terms listed for a topic are its heaviest ones, heaviest
    first: the listed positions are the last [n] of the argsort in reverse
    order, each listed once, the weights along the list never increase, and
    no position left out weighs more than a listed one. *)
Theorem top_terms_heaviest_first (feature_names : list string) (n : nat)
    (topic : list W) :
  length topic = length feature_names ->
  exists positions terms,
    positions = firstn n (rev (argsort leb topic))
    /\ top_terms leb feature_names n topic = inr terms
    /\ Forall2 (fun i t => nth_error feature_names i = Some t) positions terms
    /\ NoDup positions
    /\ (forall k1 k2 i1 i2 w1 w2,
          k1 < k2 ->
          nth_error positions k1 = Some i1 -> nth_error positions k2 = Some i2 ->
          nth_error topic i1 = Some w1 -> nth_error topic i2 = Some w2 ->
          leb w2 w1 = true)
    /\ (forall i j wi wj,
          In i positions -> ~ In j positions ->
          nth_error topic i = Some wi -> nth_error topic j = Some wj ->
          leb wj wi = true).
Proof.
  intros Hshape.
  destruct (argsort_ascending topic) as [pairs [Hpairs [Hsorted Hcells]]].
  set (positions := firstn n (rev (argsort leb topic))).
  assert (Hslice : Py.slice_backwards (argsort leb topic) (- Z.of_nat n - 1)
                   = positions) by apply slice_backwards_last_reversed.
  assert (Hin : forall i, In i positions -> In i (argsort leb topic)).
  { intros i Hi. apply in_rev. eapply firstn_incl. exact Hi. }
  destruct (take_in_range feature_names positions) as [terms [Hterms Hrows]].
  { apply Forall_forall. intros i Hi. apply Hin, argsort_in_range in Hi. lia. }
  assert (Hnodup : NoDup (argsort leb topic)).
  { apply (Permutation_NoDup (Permutation_sym (argsort_Permutation leb topic))).
    apply seq_NoDup. }
  assert (Hlen : length pairs = length topic).
  { rewrite <- (argsort_length leb topic), Hpairs. now rewrite length_map. }
  (* the k-th listed position is the entry of [pairs] at [len - 1 - k] *)
  assert (Hplace : forall k i,
             nth_error positions k = Some i ->
             k < n /\ k < length topic
             /\ exists w, nth_error pairs (length topic - S k) = Some (i, w)
                          /\ nth_error topic i = Some w).
  { intros k i Hk. unfold positions in Hk. rewrite nth_error_firstn in Hk.
    destruct (Nat.ltb_spec k n) as [Hkn | Hkn]; [| discriminate Hk].
    rewrite nth_error_rev, argsort_length in Hk.
    destruct (Nat.ltb_spec k (length topic)) as [Hkl | Hkl]; [| discriminate Hk].
    rewrite Hpairs in Hk. apply nth_error_map_inv in Hk.
    destruct Hk as [[i' w] [Hnth Heq]]. simpl in Heq. subst i'.
    split; [exact Hkn |]. split; [exact Hkl |]. exists w. split; [exact Hnth |].
    rewrite Forall_forall in Hcells.
    exact (Hcells (i, w) (nth_error_In _ _ Hnth)). }
  exists positions, terms. split; [reflexivity |].
  split; [unfold top_terms; rewrite Hslice; exact Hterms |].
  split; [exact Hrows |]. split; [| split].
  - unfold positions. apply firstn_NoDup. now apply NoDup_rev.
  - intros k1 k2 i1 i2 w1 w2 Hk H1 H2 Hw1 Hw2.
    destruct (Hplace k1 i1 H1) as [_ [Hl1 [v1 [Hp1 Hv1]]]].
    destruct (Hplace k2 i2 H2) as [_ [Hl2 [v2 [Hp2 Hv2]]]].
    rewrite Hw1 in Hv1. rewrite Hw2 in Hv2.
    injection Hv1 as <-. injection Hv2 as <-.
    assert (Hord : length topic - S k2 < length topic - S k1) by lia.
    exact (ascending_nth _ pairs _ _ _ _ Hsorted Hord Hp2 Hp1).
  - intros i j wi wj Hi Hj Hwi Hwj.
    destruct (In_nth_error _ _ Hi) as [k Hk].
    destruct (Hplace k i Hk) as [Hkn [Hkl [v [Hp Hv]]]].
    rewrite Hwi in Hv. injection Hv as <-.
    assert (Hjarg : In j (argsort leb topic)).
    { apply (Permutation_in _ (Permutation_sym (argsort_Permutation leb topic))).
      apply in_seq. split; [lia |]. simpl. apply nth_error_Some. congruence. }
    destruct (In_nth_error _ _ Hjarg) as [m Hm].
    assert (Hml : m < length topic).
    { rewrite <- (argsort_length leb topic). apply nth_error_Some. congruence. }
    pose proof Hm as Hm'. rewrite Hpairs in Hm'. apply nth_error_map_inv in Hm'.
    destruct Hm' as [[j' v] [Hpm Heq]]. simpl in Heq. subst j'.
    assert (Hv : nth_error topic j = Some v).
    { rewrite Forall_forall in Hcells.
      exact (Hcells (j, v) (nth_error_In _ _ Hpm)). }
    rewrite Hwj in Hv. injection Hv as <-.
    (* [j] is not listed, so its place in the argsort is before the listed ones *)
    assert (Hbefore : m < length topic - S k).
    { destruct (Nat.lt_ge_cases m (length topic - n)) as [Hlow | Hhigh].
      - lia.
      - exfalso. apply Hj. unfold positions.
        assert (Hk' : nth_error (firstn n (rev (argsort leb topic)))
                        (length topic - S m) = Some j).
        { rewrite nth_error_firstn.
          destruct (Nat.ltb_spec (length topic - S m) n) as [_ | Hbad]; [| lia].
          rewrite nth_error_rev, argsort_length.
          destruct (Nat.ltb_spec (length topic - S m) (length topic))
            as [_ | Hbad]; [| lia].
          replace (length topic - S (length topic - S m)) with m by lia.
          exact Hm. }
        eapply nth_error_In. exact Hk'. }
    destruct (Nat.eq_dec m (length topic - S k)) as [Heq | Hne]; [lia |].
    exact (ascending_nth _ pairs _ _ _ _ Hsorted Hbefore Hpm Hp).
Qed.

End TopWordsOrder.

Lemma top_terms_heaviest_first_witness :
  exists positions terms,
    positions = firstn 8 (rev (Numpy.argsort Z.leb MoreSamples.a_topic))
    /\ Notebook.top_terms Z.leb MoreSamples.ten_names 8 MoreSamples.a_topic
       = inr terms
    /\ Forall2 (fun i t => nth_error MoreSamples.ten_names i = Some t)
         positions terms
    /\ NoDup positions
    /\ (forall k1 k2 i1 i2 w1 w2,
          k1 < k2 ->
          nth_error positions k1 = Some i1 -> nth_error positions k2 = Some i2 ->
          nth_error MoreSamples.a_topic i1 = Some w1 ->
          nth_error MoreSamples.a_topic i2 = Some w2 ->
          Z.leb w2 w1 = true)
    /\ (forall i j wi wj,
          In i positions -> ~ In j positions ->
          nth_error MoreSamples.a_topic i = Some wi ->
          nth_error MoreSamples.a_topic j = Some wj ->
          Z.leb wj wi = true).
Proof.
  apply (top_terms_heaviest_first Z.leb).
  - intros a b. destruct (Z.leb_spec a b); [now left | right].
    apply Z.leb_le. lia.
  - intros a b c H1 H2. apply Z.leb_le in H1, H2. apply Z.leb_le. lia.
  - reflexivity.
Defined.

(** ** Series and columns *)

Section SeriesFacts.
Import Pandas Frames.

Lemma apply_return_inv (f : scalar -> Py.result scalar) (s out : Series) :
  apply f s = inr out ->
  map fst out = map fst s
  /\ Forall2 (fun lv lw => f (snd lv) = inr (snd lw)) s out.
Proof.
  revert out. induction s as [| [l v] s IH]; simpl; intros out H.
  - injection H as <-. split; [reflexivity | constructor].
  - destruct (f v) as [e | w] eqn:Hv; cbn [Py.bind] in H; [discriminate H |].
    destruct (apply f s) as [e | ws] eqn:Hs; cbn [Py.bind] in H; [discriminate H |].
    injection H as <-. destruct (IH ws eq_refl) as [Hl Hrows]. split.
    + simpl. now rewrite Hl.
    + constructor; assumption.
Qed.

Lemma combine_fst_snd {A B : Type} (l : list (A * B)) :
  combine (map fst l) (map snd l) = l.
Proof.
  induction l as [| [a b] l IH]; simpl; [reflexivity | now rewrite IH].
Qed.

Lemma map_fst_combine {A B : Type} (l : list A) (l' : list B) :
  length l = length l' -> map fst (combine l l') = l.
Proof.
  revert l'. induction l as [| a l IH]; intros [| b l'] H; simpl in *;
    try discriminate H; [reflexivity |].
  f_equal. apply IH. now injection H.
Qed.

Lemma map_snd_combine {A B : Type} (l : list A) (l' : list B) :
  length l = length l' -> map snd (combine l l') = l'.
Proof.
  revert l'. induction l as [| a l IH]; intros [| b l'] H; simpl in *;
    try discriminate H; [reflexivity |].
  f_equal. apply IH. now injection H.
Qed.

Lemma column_put_same (name : string) (cells : list scalar)
    (cols : list (string * list scalar)) :
  column name (put_column name cells cols) = Some cells.
Proof.
  induction cols as [| [n old] cols IH]; simpl.
  - now rewrite String.eqb_refl.
  - destruct (String.eqb name n) eqn:Hn; simpl; rewrite Hn; [reflexivity | exact IH].
Qed.

Lemma column_put_other (name other : string) (cells : list scalar)
    (cols : list (string * list scalar)) :
  other <> name ->
  column other (put_column name cells cols) = column other cols.
Proof.
  intros Hne. induction cols as [| [n old] cols IH]; simpl.
  - apply String.eqb_neq in Hne. now rewrite Hne.
  - destruct (String.eqb name n) eqn:Hn; simpl.
    + apply String.eqb_eq in Hn. subst n.
      apply String.eqb_neq in Hne. now rewrite Hne.
    + destruct (String.eqb other n); [reflexivity | exact IH].
Qed.

(** A Series that carries the index of the table is stored as it is. *)
Lemma setitem_series_same_index (df : DataFrame) (name : string) (s : Series) :
  map fst s = index df ->
  setitem_series df name s
  = inr {| index := index df;
           columns := put_column name (map snd s) (columns df) |}.
Proof.
  intros H. unfold setitem_series.
  now rewrite (proj2 (index_eqb_eq (map fst s) (index df)) H).
Qed.

End SeriesFacts.

(** ** The length and the filtered text of each joke *)

Section TextColumns.
Import Spacy Pandas Frames Notebook Cells.

Lemma text_lengths_cons (l v : scalar) (texts : Series) :
  text_lengths ((l, v) :: texts)
  = Py.bind (text_length v)
      (fun y => Py.bind (text_lengths texts) (fun ys => Py.ret ((l, y) :: ys))).
Proof. reflexivity. Qed.

Lemma text_lengths_cases (texts : Series) :
  (Forall (fun lv => exists s, snd lv = Str s) texts
   /\ exists out,
        text_lengths texts = inr out
        /\ map fst out = map fst texts
        /\ Forall2 (fun lv lw => exists s, snd lv = Str s
                                           /\ snd lw = Int (Text.len s))
             texts out)
  \/ (~ Forall (fun lv => exists s, snd lv = Str s) texts
      /\ text_lengths texts = inl Py.TypeError).
Proof.
  induction texts as [| [l v] texts IH].
  - left. split; [constructor |]. exists []. repeat split. constructor.
  - rewrite text_lengths_cons.
    assert (Hbad : (forall s, v <> Str s) ->
                   ~ Forall (fun lv => exists s, snd lv = Str s) ((l, v) :: texts)).
    { intros Hv H. inversion H as [| ? ? [s Hs] _]; subst. exact (Hv s Hs). }
    destruct v as [s | z | n d |];
      try (right; split; [apply Hbad; intros s; discriminate | reflexivity]).
    destruct IH as [[Hall [out [Hout [Hl Hrows]]]] | [Hnot Hraise]].
    + left. split; [constructor; [now exists s | exact Hall] |].
      exists ((l, Int (Text.len s)) :: out). cbn [text_length Py.bind Py.ret].
      rewrite Hout. cbn [Py.bind Py.ret]. split; [reflexivity |]. split.
      * simpl. now rewrite Hl.
      * constructor; [now exists s | exact Hrows].
    + right. split.
      * intros H. apply Hnot. now inversion H.
      * cbn [text_length Py.bind Py.ret]. now rewrite Hraise.
Qed.

(** X8.  The length cell returns exactly when every text is a string: then
    each joke gets the number of characters of its text under its own
    label; a single cell that is no string (a missing text) makes the whole
    cell raise [TypeError]. *)
Theorem text_lengths_needs_strings (texts : Series) :
  (Forall (fun lv => exists s, snd lv = Str s) texts ->
     exists out,
       text_lengths texts = inr out
       /\ map fst out = map fst texts
       /\ Forall2 (fun lv lw => exists s, snd lv = Str s
                                          /\ snd lw = Int (Text.len s))
            texts out)
  /\ (~ Forall (fun lv => exists s, snd lv = Str s) texts ->
      text_lengths texts = inl Py.TypeError).
Proof.
  destruct (text_lengths_cases texts) as [[Hall Hout] | [Hnot Hraise]]; split;
    intros H; try assumption; contradiction.
Qed.

Lemma text_lengths_needs_strings_witness :
  (exists out,
      text_lengths [(Int 0, Str "hola"); (Int 1, Str "adiós")] = inr out
      /\ map fst out = map fst [(Int 0, Str "hola"); (Int 1, Str "adiós")]
      /\ Forall2 (fun lv lw => exists s, snd lv = Str s
                                         /\ snd lw = Int (Text.len s))
           [(Int 0, Str "hola"); (Int 1, Str "adiós")] out)
  /\ text_lengths [(Int 0, Str "hola"); (Int 1, NaN)] = inl Py.TypeError.
Proof.
  split.
  - apply (proj1 (text_lengths_needs_strings
                    [(Int 0, Str "hola"); (Int 1, Str "adiós")])).
    repeat constructor; eexists; reflexivity.
  - apply (proj2 (text_lengths_needs_strings [(Int 0, Str "hola"); (Int 1, NaN)])).
    intros H. inversion H as [| ? ? _ H']; subst.
    inversion H' as [| ? ? [s Hs] _]; subst. discriminate Hs.
Defined.

Variable infer : list string -> list scalar.
Variable na_values : list string.

(** X9.  Take a file that splits into fields, with [id] and [text] columns
    and no record longer than the header.  When the text field of some
    record is empty (or another missing-value marker of the pandas release
    in use), the file loads without an error and the length cell then raises
    [TypeError], provided the id column is read as one label per record. *)
Theorem add_len_raises_on_missing_text (fs : filesystem) (f : csv_file)
    (k j : nat) :
  fs "chistes.csv" = Some (inr f) ->
  Forall (fun record => length record <= length (header f)) (records f) ->
  position "id" (header f) = Some k ->
  position "text" (header f) = Some j ->
  length (infer (fields_of k f)) = length (records f) ->
  (exists record, In record (records f)
                  /\ is_na na_values (nth j record "") = true) ->
  exists df, load infer na_values fs = inr df /\ add_len df = inl Py.TypeError.
Proof.
  intros Hfile Hwidth Hid Htext Hlen [record [Hrec Hna]].
  assert (Hheader : header f <> []).
  { intros Hnil. rewrite Hnil in Hid. discriminate Hid. }
  rewrite (load_of_fields infer na_values fs f Hfile Hheader Hwidth), Hid.
  eexists. split; [reflexivity |].
  unfold add_len, getitem. cbn [columns index].
  rewrite (column_of_header _ "text" (header f) k j 0 Htext).
  - change (0 + j) with j.
    change (Py.contains ["text"] (snd (j, "text"))) with true.
    cbn [fst snd Py.bind Py.ret].
    assert (Hraise : text_lengths
                       (combine (infer (fields_of k f))
                          (as_str na_values (fields_of j f)))
                     = inl Py.TypeError).
    { destruct (text_lengths_cases
                  (combine (infer (fields_of k f))
                     (as_str na_values (fields_of j f))))
        as [[Hall _] | [_ Hraise]]; [| exact Hraise].
      exfalso. rewrite Forall_forall in Hall.
      destruct (In_nth _ _ [] Hrec) as [r [Hr Hnth]].
      assert (Hcell : nth r (as_str na_values (fields_of j f)) NaN = NaN).
      { unfold as_str, fields_of. rewrite map_map.
        rewrite (nth_indep _ NaN
                   ((fun x => if is_na na_values (nth j x "") then NaN
                              else Str (nth j x "")) []))
          by (rewrite length_map; exact Hr).
        rewrite (map_nth (fun x => if is_na na_values (nth j x "") then NaN
                                   else Str (nth j x ""))).
        now rewrite Hnth, Hna. }
      assert (Hcells : length (as_str na_values (fields_of j f))
                       = length (records f)).
      { unfold as_str, fields_of. now rewrite !length_map. }
      destruct (Hall (nth r (combine (infer (fields_of k f))
                               (as_str na_values (fields_of j f)))
                        (NaN, NaN))) as [s Hs].
      + apply nth_In. rewrite length_combine, Hlen, Hcells. lia.
      + rewrite combine_nth in Hs by (now rewrite Hlen, Hcells).
        simpl in Hs. rewrite Hcell in Hs. discriminate Hs. }
    now rewrite Hraise.
  - simpl. intros ->.
    exact (position_distinct "id" "text" _ _ ltac:(discriminate) Hid Htext).
Qed.

End TextColumns.

Lemma add_len_raises_on_missing_text_witness :
  exists df,
    Notebook.load Samples.infer_int Pandas.default_na_values
      (Samples.only MoreSamples.empty_text_csv)
    = inr df
    /\ Cells.add_len df = inl Py.TypeError.
Proof.
  apply (add_len_raises_on_missing_text Samples.infer_int
           Pandas.default_na_values
           (Samples.only MoreSamples.empty_text_csv)
           MoreSamples.empty_text_csv 0 1).
  - reflexivity.
  - repeat constructor.
  - reflexivity.
  - reflexivity.
  - reflexivity.
  - exists ["1"; ""; "otros"]. split; [right; now left | reflexivity].
Defined.

Section DerivedColumns.
Import Spacy Pandas Frames Notebook Cells Numpy Sklearn.

(** X10.  On a table whose text column has one cell per row, adding the
    filtered text keeps the row labels and every other column as they
    were, and the new column reads back as the filtered texts, row by
    row. *)
Theorem add_filtered_text_adds_one_column (nlp : Language) (df df' : DataFrame)
    (cells : list scalar) :
  column "text" (columns df) = Some cells ->
  length cells = n_rows df ->
  add_filtered_text nlp df = inr df' ->
  index df' = index df
  /\ getitem df' "filtered_text" = filtered_text nlp df
  /\ (forall name, name <> "filtered_text" ->
        column name (columns df') = column name (columns df)).
Proof.
  intros Htext Hlen. unfold add_filtered_text, filtered_text, getitem.
  rewrite Htext. cbn [Py.bind Py.ret].
  destruct (filter_texts nlp (combine (index df) cells)) as [e | filtered] eqn:Hf;
    cbn [Py.bind]; [intros H; discriminate H |].
  unfold filter_texts in Hf. apply apply_return_inv in Hf.
  destruct Hf as [Hlabels _].
  rewrite map_fst_combine in Hlabels by (symmetry; exact Hlen).
  rewrite (setitem_series_same_index _ _ _ Hlabels).
  intros [= <-]. cbn [index columns]. split; [reflexivity |]. split.
  - rewrite column_put_same, <- Hlabels, combine_fst_snd. reflexivity.
  - intros name Hne. now apply column_put_other.
Qed.

Lemma add_filtered_text_adds_one_column_witness :
  exists df',
    add_filtered_text Samples.nlp_perro
      {| index := [Int 0]; columns := [("text", [Str "El perro ladra."])] |}
    = inr df'
    /\ index df' = [Int 0]
    /\ getitem df' "filtered_text" = inr [(Int 0, Str "perro ladrar")].
Proof.
  eexists. split; [reflexivity |].
  destruct (add_filtered_text_adds_one_column Samples.nlp_perro
              {| index := [Int 0]; columns := [("text", [Str "El perro ladra."])] |}
              _ [Str "El perro ladra."] eq_refl eq_refl eq_refl) as [H1 [H2 _]].
  split; [exact H1 | exact H2].
Defined.

Lemma row_getitem_cells (cols : list (string * list scalar)) (p : nat)
    (name : string) :
  row_getitem (map (fun c => (fst c, nth p (snd c) NaN)) cols) name
  = match column name cols with
    | Some cells => inr (nth p cells NaN)
    | None => inl (Py.KeyError name)
    end.
Proof.
  induction cols as [| [n cells] cols IH]; simpl; [reflexivity |].
  destruct (String.eqb name n); [reflexivity | exact IH].
Qed.

(** X11.  The sample joke is the text in the eleventh row.  A table of ten
    rows or fewer raises [IndexError]; a longer table without a text column
    raises [KeyError]. *)
Theorem random_joke_eleventh_row (df : DataFrame) :
  (n_rows df <= 10 -> random_joke df = inl Py.IndexError)
  /\ (10 < n_rows df ->
      random_joke df
      = match column "text" (columns df) with
        | Some cells => inr (nth 10 cells NaN)
        | None => inl (Py.KeyError "text")
        end).
Proof.
  unfold random_joke, iloc. split; intros H.
  - destruct (Nat.ltb_spec 10 (n_rows df)); [lia | reflexivity].
  - destruct (Nat.ltb_spec 10 (n_rows df)); [| lia].
    cbn [Py.bind Py.ret]. apply row_getitem_cells.
Qed.

Lemma random_joke_eleventh_row_witness :
  random_joke MoreSamples.twelve_jokes = inr (Str "chiste 10")
  /\ random_joke Samples.two_jokes = inl Py.IndexError.
Proof.
  split.
  - rewrite (proj2 (random_joke_eleventh_row MoreSamples.twelve_jokes));
      [reflexivity | vm_compute; lia].
  - apply (proj1 (random_joke_eleventh_row Samples.two_jokes)). vm_compute. lia.
Defined.

(** X12.  The column of encoded ids has one id per joke, under the joke's
    own label, and decoding the id of a row gives back the category of that
    row. *)
Theorem encode_categories_rows_decode (category : list (scalar * string)) :
  map fst (snd (encode_categories category)) = map fst category
  /\ Forall2 (fun lc ly =>
                fst ly = fst lc
                /\ exists i,
                     snd ly = Int (Z.of_nat i)
                     /\ i < length (fst (encode_categories category))
                     /\ decode (fst (encode_categories category)) i = inr (snd lc))
       category (snd (encode_categories category)).
Proof.
  rewrite encode_categories_unfold. cbn [fst snd]. unfold id_column.
  set (classes_ := fit (map snd category)).
  split.
  - apply map_fst_combine. now rewrite !length_map.
  - assert (H : forall l : list (scalar * string),
               incl (map snd l) (map snd category) ->
               Forall2 (fun lc ly =>
                          fst ly = fst lc
                          /\ exists i,
                               snd ly = Int (Z.of_nat i)
                               /\ i < length classes_
                               /\ decode classes_ i = inr (snd lc))
                 l (combine (map fst l)
                      (map (fun i => Int (Z.of_nat i))
                         (map (searchsorted classes_) (map snd l))))).
    { induction l as [| [l0 c0] l IH]; intros Hincl; simpl; constructor.
      - split; [reflexivity |]. exists (searchsorted classes_ c0). simpl.
        assert (Hin : In c0 classes_).
        { apply (proj2 (fit_In _ _)). apply Hincl. now left. }
        destruct (class_position _ _ Hin) as [Hnth Hlt].
        split; [reflexivity |]. split; [exact Hlt |].
        unfold decode. fold classes_ in Hnth. now rewrite Hnth.
      - apply IH. intros x Hx. apply Hincl. now right. }
    apply H, incl_refl.
Qed.

Lemma encode_categories_rows_decode_witness :
  map fst (snd (encode_categories Samples.seven_categories))
  = map fst Samples.seven_categories.
Proof.
  exact (proj1 (encode_categories_rows_decode Samples.seven_categories)).
Defined.



End DerivedColumns.

(** ** Documents without tokens *)

Section EmptyDocuments.
Import Numpy Sklearn Notebook.

Variable analyzer : string -> list string.

Lemma tokens_without_empty (docs : list string) :
  flat_map analyzer (filter (Corpus.has_token analyzer) docs) = flat_map analyzer docs.
Proof.
  induction docs as [| d docs IH]; [reflexivity |].
  cbn [filter flat_map]. unfold Corpus.has_token at 1.
  destruct (analyzer d) as [| t ts] eqn:Hd.
  - exact IH.
  - cbn [flat_map]. now rewrite Hd, IH.
Qed.

Lemma document_frequency_without_empty (docs : list string) (term : string) :
  document_frequency analyzer (filter (Corpus.has_token analyzer) docs) term
  = document_frequency analyzer docs term.
Proof.
  unfold document_frequency.
  induction docs as [| d docs IH]; [reflexivity |].
  cbn [filter]. unfold Corpus.has_token at 1.
  destruct (analyzer d) as [| t ts] eqn:Hd.
  - cbn [Py.contains existsb]. exact IH.
  - cbn [filter]. rewrite Hd.
    destruct (Py.contains (t :: ts) term); cbn [length]; now rewrite IH.
Qed.

Lemma term_frequency_without_empty (docs : list string) (term : string) :
  term_frequency analyzer (filter (Corpus.has_token analyzer) docs) term
  = term_frequency analyzer docs term.
Proof. unfold term_frequency. now rewrite tokens_without_empty. Qed.

Lemma limit_features_without_empty (docs vocabulary : list string)
    (high low limit : nat) :
  limit_features analyzer (filter (Corpus.has_token analyzer) docs) vocabulary high low limit
  = limit_features analyzer docs vocabulary high low limit.
Proof.
  unfold limit_features.
  rewrite (filter_ext _
             (fun t => Nat.leb (document_frequency analyzer docs t) high
                       && Nat.leb low (document_frequency analyzer docs t)))
    by (intros t; now rewrite document_frequency_without_empty).
  set (masked := filter _ vocabulary).
  rewrite (map_ext _
             (fun t => Z.opp (Z.of_nat (term_frequency analyzer docs t))))
    by (intros t; now rewrite term_frequency_without_empty).
  reflexivity.
Qed.

(** X14.  Documents in which the analyzer finds no token (such as a joke
    filtered down to the empty string) change nothing: the fit resolves the
    same vocabulary, or fails the same way, with or without them. *)
Theorem fit_vocabulary_ignores_empty_documents (max_df max_features : nat)
    (docs : list string) :
  fit_vocabulary analyzer max_df max_features docs
  = fit_vocabulary analyzer max_df max_features
      (filter (Corpus.has_token analyzer) docs).
Proof.
  unfold fit_vocabulary, count_vocab.
  rewrite tokens_without_empty.
  destruct (first_seen (flat_map analyzer docs) []) as [| t ts]; [reflexivity |].
  destruct (Nat.ltb max_df 1); [reflexivity |].
  now rewrite limit_features_without_empty.
Qed.

End EmptyDocuments.

Lemma fit_vocabulary_ignores_empty_documents_witness :
  Notebook.tfidf_vectorizer Samples.words_of MoreSamples.corpus_with_gap
  = Notebook.tfidf_vectorizer Samples.words_of Samples.small_corpus.
Proof.
  exact (fit_vocabulary_ignores_empty_documents Samples.words_of 200 500
           MoreSamples.corpus_with_gap).
Defined.

(** ** The jokes of topic 1 *)

Section TopicOne.
Import Pandas Frames Notebook Cells.

Lemma column_app (name : string) (a b : list (string * list scalar)) :
  column name (a ++ b)
  = match column name a with
    | Some cells => Some cells
    | None => column name b
    end.
Proof.
  induction a as [| [n cells] a IH]; simpl; [reflexivity |].
  destruct (String.eqb name n); [reflexivity | exact IH].
Qed.

Lemma column_map (name : string) (g : list scalar -> list scalar)
    (cols : list (string * list scalar)) :
  column name (map (fun c => (fst c, g (snd c))) cols)
  = option_map g (column name cols).
Proof.
  induction cols as [| [n cells] cols IH]; simpl; [reflexivity |].
  destruct (String.eqb name n); [reflexivity | exact IH].
Qed.

Lemma topic_1_column (topics : list (list scalar)) :
  column "topic_1" (columns (DataFrame_of_rows topics None topic_columns))
  = Some (map (fun row => nth 1 row NaN) topics).
Proof. reflexivity. Qed.

Lemma where_true_map {A B : Type} (f : A -> B) (mask : list bool) (xs : list A) :
  where_true mask (map f xs) = map f (where_true mask xs).
Proof.
  revert xs. induction mask as [| m mask IH]; intros [| x xs]; simpl;
    try reflexivity.
  destruct m; simpl; now rewrite IH.
Qed.

Lemma where_true_length {A B : Type} (mask : list bool) (xs : list A)
    (ys : list B) :
  length xs = length ys ->
  length (where_true mask xs) = length (where_true mask ys).
Proof.
  revert xs ys. induction mask as [| m mask IH]; intros [| x xs] [| y ys] H;
    simpl in *; try reflexivity; try discriminate H.
  injection H as H. destruct m; simpl; now rewrite (IH xs ys H).
Qed.

Lemma mapM_values {A B C : Type} (f : B -> Py.result C) (labels : list A)
    (values : list B) :
  length labels = length values ->
  Py.mapM (fun lv => f (snd lv)) (combine labels values) = Py.mapM f values.
Proof.
  revert values. induction labels as [| l labels IH]; intros [| v values] H;
    simpl in *; try reflexivity; try discriminate H.
  injection H as H. now rewrite (IH values H).
Qed.

Lemma mask_of_numbers (num : Z) (den : positive) (cells : list scalar) :
  Forall (fun v => forall s, v <> Str s) cells ->
  Py.mapM (gt num den) cells = inr (map (is_above num den) cells).
Proof.
  induction 1 as [| v cells Hv _ IH]; simpl; [reflexivity |].
  rewrite IH. unfold is_above.
  destruct v as [s | z | n d |]; try reflexivity. exfalso. exact (Hv s eq_refl).
Qed.

Lemma print_all (texts : list string) :
  Py.mapM print_joke (map Str texts)
  = inr (map (fun t => (t ++ Text.newline ++ Text.newline ++ Text.newline)%string)
           texts).
Proof.
  induction texts as [| t texts IH]; simpl; [reflexivity |].
  now rewrite IH.
Qed.

(** X15.  On a table labelled [0 .. n-1] whose texts are all strings, joined
    with a matrix of ten numeric weights per joke, the cell prints exactly the jokes whose own weight for topic 1 is above
    0.75, in the order of the table, each followed by three line feeds. *)
Theorem print_topic1_prints_heavy_jokes (df : DataFrame)
    (topics : list (list scalar)) (texts : list string) :
  Forall (fun row => length row = 10) topics ->
  index df = RangeIndex (length topics) ->
  column "text" (columns df) = Some (map Str texts) ->
  length texts = length topics ->
  column "topic_1" (columns df) = None ->
  Forall (fun row => forall s, nth 1 row NaN <> Str s) topics ->
  print_topic1 (jokes_with_topics_weights df topics)
  = inr (map (fun t => (t ++ Text.newline ++ Text.newline ++ Text.newline)%string)
           (where_true (map (fun row => is_above 3 4 (nth 1 row NaN)) topics)
              texts)).
Proof.
  intros _ Hix Htext Hlen Hfree Hnum.
  rewrite (jokes_with_topics_weights_from_zero df topics Hix).
  assert (Hn : length (index df) = length topics).
  { rewrite Hix. unfold RangeIndex. now rewrite length_map, length_seq. }
  unfold print_topic1, topic1, getitem. cbn [columns index].
  rewrite column_app, Hfree, topic_1_column. cbn [Py.bind Py.ret].
  rewrite mapM_values by (now rewrite length_map).
  rewrite (mask_of_numbers 3 4).
  2:{ apply Forall_forall. intros v Hv. apply in_map_iff in Hv.
      destruct Hv as [row [<- Hrow]]. rewrite Forall_forall in Hnum.
      now apply Hnum. }
  rewrite map_map.
  set (mask := map (fun row => is_above 3 4 (nth 1 row NaN)) topics).
  cbn [Py.bind]. unfold select. cbn [Py.bind Py.ret columns index].
  rewrite (column_map "text"), column_app, Htext.
  cbn [option_map Py.bind Py.ret].
  rewrite mapM_values.
  - rewrite where_true_map. apply print_all.
  - apply where_true_length. now rewrite length_map, Hn, Hlen.
Qed.

End TopicOne.

Lemma print_topic1_prints_heavy_jokes_witness :
  Cells.print_topic1
    (Notebook.jokes_with_topics_weights Samples.two_jokes_from_zero
       Samples.two_topics)
  = inr (map (fun t => (t ++ Text.newline ++ Text.newline ++ Text.newline)%string)
           (Frames.where_true
              (map (fun row => Frames.is_above 3 4 (nth 1 row Pandas.NaN))
                 Samples.two_topics)
              ["primero"; "segundo"]))
  /\ Frames.where_true
       (map (fun row => Frames.is_above 3 4 (nth 1 row Pandas.NaN))
          Samples.two_topics)
       ["primero"; "segundo"] = ["segundo"].
Proof.
  split; [| reflexivity].
  apply (print_topic1_prints_heavy_jokes Samples.two_jokes_from_zero
           Samples.two_topics ["primero"; "segundo"]).
  - repeat constructor.
  - reflexivity.
  - reflexivity.
  - reflexivity.
  - reflexivity.
  - repeat constructor; intros s; discriminate.
Defined.

(** ** The table of counts *)

Section Counted.
Import Pandas Notebook.

(** Under labels without repeats, a label finds the cell at its own
    position. *)
Lemma assoc_unique {A : Type} (labels : list scalar) (cells : list A)
    (p : nat) (l : scalar) :
  NoDup labels ->
  nth_error labels p = Some l ->
  assoc l (combine labels cells) = nth_error cells p.
Proof.
  intros Hnd. revert cells p.
  induction Hnd as [| a labels Hnotin _ IH]; intros cells p Hp.
  - destruct p; discriminate Hp.
  - destruct cells as [| c cells]; [now destruct p |].
    destruct p as [| p]; simpl in *.
    + injection Hp as ->. now rewrite (proj2 (scalar_eqb_eq l l) eq_refl).
    + destruct (scalar_eqb l a) eqn:Hla.
      * apply scalar_eqb_eq in Hla. subst a. exfalso. apply Hnotin.
        eapply nth_error_In. exact Hp.
      * now apply IH.
Qed.

(** X16.  In the table of counts, built with [index=df.index] from a
    matrix with one row per joke and one column per feature name, the row
    found under the id of the p-th joke holds the counts of the p-th row of
    the bag of words, whatever the ids are as long as they are unique. *)
Theorem counted_rows_follow_ids (df : DataFrame) (bag_of_words : list (list scalar))
    (feature_names : list string) (p : nat) (id : scalar) :
  length bag_of_words = n_rows df ->
  Forall (fun row => length row = length feature_names) bag_of_words ->
  NoDup (index df) ->
  nth_error (index df) p = Some id ->
  loc (counted df bag_of_words feature_names) id
  = Some (map (fun j => nth j (nth p bag_of_words []) NaN)
            (seq 0 (length feature_names))).
Proof.
  intros _ _ Hnd Hp. unfold loc, counted, DataFrame_of_rows. cbn [index columns].
  assert (Hin : existsb (scalar_eqb id) (index df) = true).
  { apply existsb_exists. exists id. split.
    - eapply nth_error_In. exact Hp.
    - now apply scalar_eqb_eq. }
  rewrite Hin. f_equal. rewrite map_map.
  assert (H : forall (names : list string) (start : nat),
             map (fun jn : nat * string =>
                    match assoc id
                            (combine (index df)
                               (snd (snd jn,
                                     map (fun row => nth (fst jn) row NaN)
                                       bag_of_words)))
                    with
                    | Some v => v
                    | None => NaN
                    end) (combine (seq start (length names)) names)
             = map (fun j => nth j (nth p bag_of_words []) NaN)
                 (seq start (length names))).
  { induction names as [| name names IH]; intros start; simpl; [reflexivity |].
    rewrite IH. f_equal.
    rewrite (assoc_unique _ _ p id Hnd Hp).
    assert (Hd : nth start (@nil scalar) NaN = NaN) by now destruct start.
    destruct (nth_error (map (fun row => nth start row NaN) bag_of_words) p)
      as [v |] eqn:Hv.
    - apply nth_error_map_inv in Hv. destruct Hv as [row [Hrow ->]].
      now rewrite (nth_error_nth _ _ [] Hrow).
    - apply nth_error_None in Hv. rewrite length_map in Hv.
      now rewrite (nth_overflow _ [] Hv), Hd. }
  exact (H feature_names 0).
Qed.

Lemma counted_rows_follow_ids_witness :
  loc (counted Samples.two_jokes [[Int 2; Int 0]; [Int 0; Int 1]] ["mama"; "perro"])
    (Int 2)
  = Some (map (fun j => nth j (nth 1 [[Int 2; Int 0]; [Int 0; Int 1]] []) NaN)
            (seq 0 (length ["mama"; "perro"]))).
Proof.
  apply (counted_rows_follow_ids Samples.two_jokes
           [[Int 2; Int 0]; [Int 0; Int 1]] ["mama"; "perro"] 1 (Int 2)).
  - reflexivity.
  - repeat constructor.
  - repeat constructor; simpl; intuition discriminate.
  - reflexivity.
Defined.

End Counted.
